(** * Session-history reconciler (consumer/session/session_storage.go)

    A shallow embedding of the [Storage] repository of package [session]:
    the in-memory table of active sessions, the four event consumers, the
    two persisted transitions and the read-all query, together with the
    properties the specification states about them.

    The handlers run in a small monad that threads the repository state,
    can end in a runtime panic or block on the mutex, and records the
    observable actions of a run (lock operations, table accesses, calls to
    the persistence port, log lines).  Two deliveries at once are two
    goroutines whose steps interleave on one repository. *)

From Stdlib Require Import ZArith NArith List.
From stdpp Require Import gmap strings.

Local Open Scope string_scope.

(** ** Types of the collaborating packages *)

(** Modelled from the spec: [time.Time] is declared outside the reconciler;
    an instant and the location it is presented in.  The zero value is the
    unset timestamp. *)
Module time.
Inductive Location := UTCLocation | LocalLocation.

Record Time := { instant : Z; location : Location }.

Definition zero : Time := {| instant := 0; location := UTCLocation |}.

Definition UTC (t : Time) : Time :=
  {| instant := instant t; location := UTCLocation |}.
End time.

(** Modelled from the spec: identity handles and the settlement address are
    formatted by external collaborators. *)
Module identity.
Record Identity := { Address : string }.
End identity.

Module common.
Definition Address := list Byte.byte.
End common.

(** Modelled from the spec: the proposal metadata a session carries; only
    the parts the reconciler reads. *)
Module market.
Record Location := { Country : string }.

Record ServiceDefinition := { GetLocation : Location }.

Record ServiceProposal := {
  ProviderID : string;
  ServiceType : string;
  ServiceDefinition_ : ServiceDefinition
}.
End market.

(** Modelled from the spec: the low-level session the Session Lookup Port
    returns (package [session] of the node). *)
Module session_node.
Abbreviation ID := string (only parsing).

Record DataTransferred := { Up : N; Down : N }.

Record Session := {
  ConsumerID : identity.Identity;
  AccountantID : common.Address;
  Proposal : market.ServiceProposal;
  DataTransferred_ : DataTransferred;
  TokensEarned : N;
  CreatedAt : time.Time
}.
End session_node.

(** Modelled from the spec: service-session lifecycle events, with a status
    tag among created, removed and any other one. *)
Module session_event.
Inductive Status := CreatedStatus | RemovedStatus | AcknowledgedStatus.

Record AppEventSession := { Status_ : Status; ID : string }.
End session_event.

(** Modelled from the spec: connection-level events of the consumer role. *)
Module connection.
Inductive Status := SessionCreatedStatus | SessionEndedStatus | SessionOtherStatus.

Record SessionInfo := {
  SessionID : session_node.ID;
  ConsumerID : identity.Identity;
  AccountantID : common.Address;
  Proposal : market.ServiceProposal;
  StartedAt : time.Time
}.

Record Statistics := { BytesSent : N; BytesReceived : N }.

Record AppEventConnectionSession := {
  Status_ : Status;
  SessionInfo_ : SessionInfo
}.

Record AppEventConnectionStatistics := {
  Stats : Statistics;
  StatsSessionInfo : SessionInfo
}.
End connection.

(** Modelled from the spec: the invoice-paid event with the cumulative
    agreement total of the paid invoice. *)
Module pingpong_event.
Record Invoice := { AgreementTotal : N }.

Record AppEventInvoicePaid := { SessionID : string; Invoice_ : Invoice }.
End pingpong_event.

(** ** The History Record *)

(** Modelled from the spec: the [History] struct is declared in a file of
    package [session] other than the reconciler's.  Section 3 of the
    specification lists its fields; the enumerations get the zero value a
    freshly built record has before a transition sets them. *)
Module History.
Inductive Direction := DirectionUnset | DirectionProvider | DirectionConsumer.

Inductive Status := StatusUnset | StatusNew | StatusCompleted.

Record t := {
  SessionID : session_node.ID;
  Direction_ : Direction;
  ConsumerID : identity.Identity;
  AccountantID : string;
  ProviderID : identity.Identity;
  ServiceType : string;
  ProviderCountry : string;
  DataSent : N;
  DataReceived : N;
  Tokens : N;
  Status_ : Status;
  Started : time.Time;
  Updated : time.Time
}.

Definition with_DataSent (v : N) (r : t) : t :=
  {| SessionID := SessionID r; Direction_ := Direction_ r;
     ConsumerID := ConsumerID r; AccountantID := AccountantID r;
     ProviderID := ProviderID r; ServiceType := ServiceType r;
     ProviderCountry := ProviderCountry r;
     DataSent := v; DataReceived := DataReceived r; Tokens := Tokens r;
     Status_ := Status_ r; Started := Started r; Updated := Updated r |}.

Definition with_DataReceived (v : N) (r : t) : t :=
  {| SessionID := SessionID r; Direction_ := Direction_ r;
     ConsumerID := ConsumerID r; AccountantID := AccountantID r;
     ProviderID := ProviderID r; ServiceType := ServiceType r;
     ProviderCountry := ProviderCountry r;
     DataSent := DataSent r; DataReceived := v; Tokens := Tokens r;
     Status_ := Status_ r; Started := Started r; Updated := Updated r |}.

Definition with_Tokens (v : N) (r : t) : t :=
  {| SessionID := SessionID r; Direction_ := Direction_ r;
     ConsumerID := ConsumerID r; AccountantID := AccountantID r;
     ProviderID := ProviderID r; ServiceType := ServiceType r;
     ProviderCountry := ProviderCountry r;
     DataSent := DataSent r; DataReceived := DataReceived r; Tokens := v;
     Status_ := Status_ r; Started := Started r; Updated := Updated r |}.

Definition with_Status (v : Status) (r : t) : t :=
  {| SessionID := SessionID r; Direction_ := Direction_ r;
     ConsumerID := ConsumerID r; AccountantID := AccountantID r;
     ProviderID := ProviderID r; ServiceType := ServiceType r;
     ProviderCountry := ProviderCountry r;
     DataSent := DataSent r; DataReceived := DataReceived r;
     Tokens := Tokens r;
     Status_ := v; Started := Started r; Updated := Updated r |}.

Definition with_Updated (v : time.Time) (r : t) : t :=
  {| SessionID := SessionID r; Direction_ := Direction_ r;
     ConsumerID := ConsumerID r; AccountantID := AccountantID r;
     ProviderID := ProviderID r; ServiceType := ServiceType r;
     ProviderCountry := ProviderCountry r;
     DataSent := DataSent r; DataReceived := DataReceived r;
     Tokens := Tokens r;
     Status_ := Status_ r; Started := Started r; Updated := v |}.
End History.

Definition sessionStorageBucketName : string := "session-history".

(** ** Ports *)

(** A Go [error]; [None] is [nil]. *)
Definition error := option string.

(** [succeed call s xs]: the state reached by the calls [call _ x] for the
    [x] of [xs], one after the other from [s], when each of them returns
    [nil]; none when one of them returns an error. *)
Fixpoint succeed {S X : Type} (call : S -> X -> S * error) (s : S)
    (xs : list X) : option S :=
  match xs with
  | [] => Some s
  | x :: xs' =>
      match call s x with
      | (s1, None) => succeed call s1 xs'
      | (_, Some _) => None
      end
  end.

(** [Storer]: the persistence port.  Every call is a transition of the
    external store; the record is handed over for serialisation and comes
    back as it was passed. *)
Class Storer (DB : Type) := {
  Store : DB -> string -> History.t -> DB * error;
  Update : DB -> string -> History.t -> DB * error;
  GetAllFrom : DB -> string -> DB * list History.t * error
}.

(** ** Observable actions of a run *)

Inductive Level := Debug | Warn | Error.

Inductive Action :=
| ALock
| AUnlock
| ARLock
| ARUnlock
| ATableGet (id : session_node.ID)
| ATablePut (id : session_node.ID) (row : History.t)
| ATableDelete (id : session_node.ID)
| AStore (bucket : string) (row : History.t)
| AUpdate (bucket : string) (row : History.t)
| AGetAllFrom (bucket : string)
| ALog (lvl : Level) (format : string).

Definition is_table_action (a : Action) : bool :=
  match a with
  | ATableGet _ | ATablePut _ _ | ATableDelete _ => true
  | _ => false
  end.

Definition is_port_action (a : Action) : bool :=
  match a with
  | AStore _ _ | AUpdate _ _ | AGetAllFrom _ => true
  | _ => false
  end.

Definition is_update_action (a : Action) : bool :=
  match a with
  | AUpdate _ _ => true
  | _ => false
  end.

Definition is_store_action (a : Action) : bool :=
  match a with
  | AStore _ _ => true
  | _ => false
  end.

Definition is_lock_action (a : Action) : bool :=
  match a with
  | ALock | AUnlock | ARLock | ARUnlock => true
  | _ => false
  end.

(** ** The mutex *)

(** [sync.RWMutex]: one writer or any number of readers. *)
Record RWMutex := { writer : bool; readers : nat }.

Definition unlocked : RWMutex := {| writer := false; readers := 0 |}.

(** ** Outcome of a run *)

Inductive Result (S A : Type) :=
| Ret (a : A) (s : S) (tr : list Action)
| Panic (msg : string) (tr : list Action)
| Blocked (tr : list Action).

Arguments Ret {S A} a s tr.
Arguments Panic {S A} msg tr.
Arguments Blocked {S A} tr.

(** ** The repository and its monad *)

Section Reconciler.
Context {DB : Type} `{!Storer DB}.

(** External formatting helpers: [common.Address.Hex] and
    [identity.FromAddress]. *)
Variable Hex : common.Address -> string.
Variable FromAddress : string -> identity.Identity.

(** [Storage]: the fields of the Go struct.  [timeGetter] is the clock,
    given as the readings still to come; [currentSessions] is the lookup
    table of the session manager. *)
Record Storage := {
  storage : DB;
  timeGetter : nat -> time.Time;
  currentSessions : session_node.ID -> option session_node.Session;
  mu : RWMutex;
  sessionsActive : gmap session_node.ID History.t
}.

Definition NewSessionStorage (st : DB) (time_Now : nat -> time.Time)
    (cs : session_node.ID -> option session_node.Session) : Storage :=
  {| storage := st; timeGetter := time_Now; currentSessions := cs;
     mu := unlocked; sessionsActive := ∅ |}.

Definition with_storage (db : DB) (s : Storage) : Storage :=
  {| storage := db; timeGetter := timeGetter s;
     currentSessions := currentSessions s; mu := mu s;
     sessionsActive := sessionsActive s |}.

Definition with_timeGetter (c : nat -> time.Time) (s : Storage) : Storage :=
  {| storage := storage s; timeGetter := c;
     currentSessions := currentSessions s; mu := mu s;
     sessionsActive := sessionsActive s |}.

Definition with_currentSessions
    (cs : session_node.ID -> option session_node.Session) (s : Storage)
    : Storage :=
  {| storage := storage s; timeGetter := timeGetter s;
     currentSessions := cs; mu := mu s;
     sessionsActive := sessionsActive s |}.

Definition with_mu (m : RWMutex) (s : Storage) : Storage :=
  {| storage := storage s; timeGetter := timeGetter s;
     currentSessions := currentSessions s; mu := m;
     sessionsActive := sessionsActive s |}.

Definition with_sessionsActive (t : gmap session_node.ID History.t)
    (s : Storage) : Storage :=
  {| storage := storage s; timeGetter := timeGetter s;
     currentSessions := currentSessions s; mu := mu s;
     sessionsActive := t |}.

Definition M (A : Type) : Type := Storage -> Result Storage A.

Definition ret {A} (a : A) : M A := fun s => Ret a s [].

Definition bind {A B} (m : M A) (k : A -> M B) : M B :=
  fun s =>
    match m s with
    | Ret a s1 t1 =>
        match k a s1 with
        | Ret b s2 t2 => Ret b s2 (t1 ++ t2)
        | Panic msg t2 => Panic msg (t1 ++ t2)
        | Blocked t2 => Blocked (t1 ++ t2)
        end
    | Panic msg t1 => Panic msg t1
    | Blocked t1 => Blocked t1
    end.

Notation "x <- m ;; k" := (bind m (fun x => k))
  (at level 100, m at next level, right associativity).
Notation "m ;; k" := (bind m (fun _ => k))
  (at level 100, right associativity).

(** [defer release] at the top of a function body: the release runs when
    the body returns. *)
Definition defer {A} (release : M unit) (body : M A) : M A :=
  a <- body ;; release ;; ret a.

(** *** Primitive steps *)

Definition mu_Lock : M unit := fun s =>
  match mu s with
  | {| writer := false; readers := O |} =>
      Ret tt (with_mu {| writer := true; readers := 0 |} s) [ALock]
  | _ => Blocked []
  end.

Definition mu_Unlock : M unit := fun s =>
  match mu s with
  | {| writer := true; readers := n |} =>
      Ret tt (with_mu {| writer := false; readers := n |} s) [AUnlock]
  | _ => Panic "sync: Unlock of unlocked RWMutex" []
  end.

Definition mu_RLock : M unit := fun s =>
  match mu s with
  | {| writer := false; readers := n |} =>
      Ret tt (with_mu {| writer := false; readers := S n |} s) [ARLock]
  | _ => Blocked []
  end.

Definition mu_RUnlock : M unit := fun s =>
  match mu s with
  | {| writer := w; readers := S n |} =>
      Ret tt (with_mu {| writer := w; readers := n |} s) [ARUnlock]
  | _ => Panic "sync: RUnlock of unlocked RWMutex" []
  end.

(** [row, ok := repo.sessionsActive[id]] *)
Definition table_get (id : session_node.ID) : M (option History.t) :=
  fun s => Ret (sessionsActive s !! id) s [ATableGet id].

(** [repo.sessionsActive[id] = row] *)
Definition table_put (id : session_node.ID) (row : History.t) : M unit :=
  fun s =>
    Ret tt (with_sessionsActive (<[id := row]> (sessionsActive s)) s)
        [ATablePut id row].

(** [delete(repo.sessionsActive, id)] *)
Definition table_delete (id : session_node.ID) : M unit :=
  fun s =>
    Ret tt (with_sessionsActive (delete id (sessionsActive s)) s)
        [ATableDelete id].

(** [repo.timeGetter()] *)
Definition now : M time.Time :=
  fun s =>
    Ret (timeGetter s 0)
        (with_timeGetter (fun n => timeGetter s (S n)) s) [].

(** [repo.currentSessions.Find(id)] *)
Definition Find (id : session_node.ID) : M (option session_node.Session) :=
  fun s => Ret (currentSessions s id) s [].

Definition storage_Store (bucket : string) (row : History.t) : M error :=
  fun s =>
    let '(db, err) := Store (storage s) bucket row in
    Ret err (with_storage db s) [AStore bucket row].

Definition storage_Update (bucket : string) (row : History.t) : M error :=
  fun s =>
    let '(db, err) := Update (storage s) bucket row in
    Ret err (with_storage db s) [AUpdate bucket row].

Definition storage_GetAllFrom (bucket : string)
    : M (list History.t * error) :=
  fun s =>
    let '(db, rows, err) := GetAllFrom (storage s) bucket in
    Ret (rows, err) (with_storage db s) [AGetAllFrom bucket].

Definition log (lvl : Level) (format : string) : M unit :=
  fun s => Ret tt s [ALog lvl format].

(** *** The query surface *)

(** [GetAll]: [nil] and the error when the bulk read fails. *)
Definition GetAll : M (list History.t * error) :=
  res <- storage_GetAllFrom sessionStorageBucketName ;;
  let '(sessions, err) := res in
  match err with
  | Some e => ret ([], Some e)
  | None => ret (sessions, None)
  end.

(** *** The two persisted transitions *)

Definition handleEndedEvent (sessionID : session_node.ID) : M unit :=
  mu_RLock ;;
  defer mu_RUnlock (
    found <- table_get sessionID ;;
    match found with
    | None => log Warn "Can't find session %v to update"
    | Some row =>
        t <- now ;;
        let row := History.with_Updated (time.UTC t) row in
        let row := History.with_Status History.StatusCompleted row in
        err <- storage_Update sessionStorageBucketName row ;;
        match err with
        | Some _ => log Error "Session %v update failed"
        | None =>
            table_delete sessionID ;;
            log Debug "Session %v updated with final data"
        end
    end).

Definition handleCreatedEvent (sessionID : session_node.ID) : M unit :=
  mu_Lock ;;
  defer mu_Unlock (
    found <- table_get sessionID ;;
    match found with
    | None => log Warn "Can't find session %v to store"
    | Some row =>
        let row := History.with_Status History.StatusNew row in
        err <- storage_Store sessionStorageBucketName row ;;
        match err with
        | Some _ => log Error "Session %v insert failed"
        | None =>
            table_put sessionID row ;;
            log Debug "Session %v saved"
        end
    end).

(** *** The four event consumers *)

Definition consumeServiceSessionEvent (e : session_event.AppEventSession)
    : M unit :=
  let sessionID : session_node.ID := session_event.ID e in
  found <- Find sessionID ;;
  match found with
  | None => log Warn "Received a unknown session update"
  | Some sessionInstance =>
      let proposal := session_node.Proposal sessionInstance in
      mu_Lock ;;
      table_put sessionID
        {| History.SessionID := sessionID;
           History.Direction_ := History.DirectionProvider;
           History.ConsumerID := session_node.ConsumerID sessionInstance;
           History.AccountantID :=
             Hex (session_node.AccountantID sessionInstance);
           History.ProviderID := FromAddress (market.ProviderID proposal);
           History.ServiceType := market.ServiceType proposal;
           History.ProviderCountry :=
             market.Country
               (market.GetLocation (market.ServiceDefinition_ proposal));
           History.DataSent :=
             session_node.Up (session_node.DataTransferred_ sessionInstance);
           History.DataReceived :=
             session_node.Down
               (session_node.DataTransferred_ sessionInstance);
           History.Tokens := session_node.TokensEarned sessionInstance;
           History.Status_ := History.StatusUnset;
           History.Started :=
             time.UTC (session_node.CreatedAt sessionInstance);
           History.Updated := time.zero |} ;;
      mu_Unlock ;;
      match session_event.Status_ e with
      | session_event.RemovedStatus => handleEndedEvent sessionID
      | session_event.CreatedStatus => handleCreatedEvent sessionID
      | _ => ret tt
      end
  end.

Definition consumeConnectionSessionEvent
    (e : connection.AppEventConnectionSession) : M unit :=
  let info := connection.SessionInfo_ e in
  let sessionID := connection.SessionID info in
  match connection.Status_ e with
  | connection.SessionEndedStatus => handleEndedEvent sessionID
  | connection.SessionCreatedStatus =>
      let proposal := connection.Proposal info in
      mu_Lock ;;
      table_put sessionID
        {| History.SessionID := sessionID;
           History.Direction_ := History.DirectionConsumer;
           History.ConsumerID := connection.ConsumerID info;
           History.AccountantID := Hex (connection.AccountantID info);
           History.ProviderID := FromAddress (market.ProviderID proposal);
           History.ServiceType := market.ServiceType proposal;
           History.ProviderCountry :=
             market.Country
               (market.GetLocation (market.ServiceDefinition_ proposal));
           History.DataSent := 0%N;
           History.DataReceived := 0%N;
           History.Tokens := 0%N;
           History.Status_ := History.StatusUnset;
           History.Started := time.UTC (connection.StartedAt info);
           History.Updated := time.zero |} ;;
      mu_Unlock ;;
      handleCreatedEvent sessionID
  | _ => ret tt
  end.

Definition consumeConnectionStatisticsEvent
    (e : connection.AppEventConnectionStatistics) : M unit :=
  mu_Lock ;;
  defer mu_Unlock (
    let sessionID := connection.SessionID (connection.StatsSessionInfo e) in
    found <- table_get sessionID ;;
    match found with
    | None => log Warn "Received a unknown session update"
    | Some row =>
        let row :=
          History.with_DataSent
            (connection.BytesSent (connection.Stats e)) row in
        let row :=
          History.with_DataReceived
            (connection.BytesReceived (connection.Stats e)) row in
        table_put sessionID row
    end).

Definition consumeConnectionSpendingEvent
    (e : pingpong_event.AppEventInvoicePaid) : M unit :=
  mu_Lock ;;
  defer mu_Unlock (
    let sessionID : session_node.ID := pingpong_event.SessionID e in
    found <- table_get sessionID ;;
    match found with
    | None => log Warn "Received a unknown session update"
    | Some row =>
        t <- now ;;
        let row := History.with_Updated (time.UTC t) row in
        let row :=
          History.with_Tokens
            (pingpong_event.AgreementTotal (pingpong_event.Invoice_ e))
            row in
        err <- storage_Update sessionStorageBucketName row ;;
        match err with
        | Some _ => log Error "Session %v update failed"
        | None =>
            table_put sessionID row ;;
            log Debug "Session %v updated"
        end
    end).

(** *** Delivery by the event bus *)

(** The four topics [Subscribe] registers a consumer for. *)
Inductive Event :=
| AppTopicSession (e : session_event.AppEventSession)
| AppTopicConnectionSession (e : connection.AppEventConnectionSession)
| AppTopicConnectionStatistics (e : connection.AppEventConnectionStatistics)
| AppTopicInvoicePaid (e : pingpong_event.AppEventInvoicePaid).

Definition consume (ev : Event) : M unit :=
  match ev with
  | AppTopicSession e => consumeServiceSessionEvent e
  | AppTopicConnectionSession e => consumeConnectionSessionEvent e
  | AppTopicConnectionStatistics e => consumeConnectionStatisticsEvent e
  | AppTopicInvoicePaid e => consumeConnectionSpendingEvent e
  end.

(** Events delivered one after the other. *)
Fixpoint deliver (evs : list Event) : M unit :=
  match evs with
  | [] => ret tt
  | ev :: evs' => consume ev ;; deliver evs'
  end.

End Reconciler.

Arguments Storage DB : clear implicits.

(** ** Lock discipline read off a trace *)

Inductive LockMode := Exclusive | Shared.

Definition acquire (m : LockMode) : Action :=
  match m with Exclusive => ALock | Shared => ARLock end.

Definition release (m : LockMode) : Action :=
  match m with Exclusive => AUnlock | Shared => ARUnlock end.

(** One critical section: the lock is taken, the body runs without any
    further lock operation, the lock is given back. *)
Definition critical_section (m : LockMode) (body : list Action)
    : list Action :=
  acquire m :: body ++ [release m].

(** [guarded held tr]: replaying the lock operations of [tr] from the mode
    [held], every lookup in the table happens while the lock is held, every
    write to the table, an insertion or a deletion, while it is held in
    exclusive mode (a lock held in shared mode leaves the other readers
    in), no lock is taken twice or released without being held, and the
    run ends with the lock free. *)
Fixpoint guarded (held : option LockMode) (tr : list Action) : bool :=
  match tr with
  | [] => match held with None => true | Some _ => false end
  | ALock :: tr' =>
      match held with None => guarded (Some Exclusive) tr' | _ => false end
  | AUnlock :: tr' =>
      match held with Some Exclusive => guarded None tr' | _ => false end
  | ARLock :: tr' =>
      match held with None => guarded (Some Shared) tr' | _ => false end
  | ARUnlock :: tr' =>
      match held with Some Shared => guarded None tr' | _ => false end
  | ATableGet _ :: tr' =>
      match held with Some _ => guarded held tr' | None => false end
  | ATablePut _ _ :: tr' | ATableDelete _ :: tr' =>
      match held with Some Exclusive => guarded held tr' | _ => false end
  | _ :: tr' => guarded held tr'
  end.

(** Where a run stands with respect to its table lookup. *)
Inductive RmwPhase := BeforeLookup | InLookupSection | AfterLookupSection.

(** [rmw_atomic ph tr]: once a critical section has looked a record up,
    every later table access and every call to the persistence port
    happens before that section ends. *)
Fixpoint rmw_atomic (ph : RmwPhase) (tr : list Action) : bool :=
  match tr with
  | [] => true
  | a :: tr' =>
      match ph with
      | BeforeLookup =>
          match a with
          | ATableGet _ => rmw_atomic InLookupSection tr'
          | _ => rmw_atomic BeforeLookup tr'
          end
      | InLookupSection =>
          match a with
          | AUnlock | ARUnlock => rmw_atomic AfterLookupSection tr'
          | _ => rmw_atomic InLookupSection tr'
          end
      | AfterLookupSection =>
          if is_table_action a || is_port_action a
          then false
          else rmw_atomic AfterLookupSection tr'
      end
  end.

(** ** Goroutines *)

(** The event bus delivers on goroutines of its own.  For two deliveries
    at once a handler is the sequence of its steps, each one primitive
    step of the repository; between two of them the steps of the other
    goroutine can fall. *)
Section Goroutines.
Context {DB : Type} `{!Storer DB}.

Inductive Steps :=
| Stop
| Step {A : Type} (m : @M DB A) (k : A -> Steps).

(** The steps, run one after the other by one goroutine. *)
Fixpoint run_steps (p : Steps) : @M DB unit :=
  match p with
  | Stop => ret tt
  | Step m k => bind m (fun a => run_steps (k a))
  end.

(** [handleEndedEvent], step by step. *)
Definition handleEndedEvent_steps (sessionID : session_node.ID) : Steps :=
  Step mu_RLock (fun _ =>
  Step (table_get sessionID) (fun found =>
  match found with
  | None =>
      Step (log Warn "Can't find session %v to update") (fun _ =>
      Step mu_RUnlock (fun _ => Stop))
  | Some row =>
      Step now (fun t =>
      let row := History.with_Updated (time.UTC t) row in
      let row := History.with_Status History.StatusCompleted row in
      Step (storage_Update sessionStorageBucketName row) (fun err =>
      match err with
      | Some _ =>
          Step (log Error "Session %v update failed") (fun _ =>
          Step mu_RUnlock (fun _ => Stop))
      | None =>
          Step (table_delete sessionID) (fun _ =>
          Step (log Debug "Session %v updated with final data") (fun _ =>
          Step mu_RUnlock (fun _ => Stop)))
      end))
  end)).

(** [handleCreatedEvent], step by step. *)
Definition handleCreatedEvent_steps (sessionID : session_node.ID) : Steps :=
  Step mu_Lock (fun _ =>
  Step (table_get sessionID) (fun found =>
  match found with
  | None =>
      Step (log Warn "Can't find session %v to store") (fun _ =>
      Step mu_Unlock (fun _ => Stop))
  | Some row =>
      let row := History.with_Status History.StatusNew row in
      Step (storage_Store sessionStorageBucketName row) (fun err =>
      match err with
      | Some _ =>
          Step (log Error "Session %v insert failed") (fun _ =>
          Step mu_Unlock (fun _ => Stop))
      | None =>
          Step (table_put sessionID row) (fun _ =>
          Step (log Debug "Session %v saved") (fun _ =>
          Step mu_Unlock (fun _ => Stop)))
      end)
  end)).

(** Two goroutines on one repository.  [schedule] says whose turn each
    step is, [true] for the first; the turn of a goroutine that has
    finished, or that waits for the mutex, passes.  The result is what is
    left of each goroutine, the repository, and the actions with the
    goroutine that made each; none when a step panics. *)
Fixpoint interleave (schedule : list bool) (a b : Steps) (s : Storage DB)
    : option (Steps * Steps * Storage DB * list (bool * Action)) :=
  match schedule with
  | [] => Some (a, b, s, [])
  | first :: rest =>
      match (if first then a else b) with
      | Stop => interleave rest a b s
      | Step m k =>
          match m s with
          | Ret x s' tr =>
              match interleave rest (if first then k x else a)
                      (if first then b else k x) s' with
              | Some (a', b', s'', tr') =>
                  Some (a', b', s'', (map (pair first) tr ++ tr')%list)
              | None => None
              end
          | Blocked _ => interleave rest a b s
          | Panic _ _ => None
          end
      end
  end.
End Goroutines.

(** The goroutines take turns, [n] times each. *)
Fixpoint round_robin (n : nat) : list bool :=
  match n with
  | O => []
  | S k => true :: false :: round_robin k
  end.

(** The actions of one goroutine among those of two. *)
Definition actions_of (who : bool) (tr : list (bool * Action))
    : list Action :=
  map snd (List.filter (fun a => Bool.eqb a.1 who) tr).

(** ** A durable store to run against *)

(** Modelled from the spec: the key-value persistence engine is an external
    collaborator.  Section 6 of the specification gives its contract:
    [Store] inserts a new record and fails on a duplicate key or when the
    engine rejects the write, [Update] upserts a record by its key with the
    rejected write as failure, [GetAllFrom] reads a collection in bulk.
    [faults] schedules the calls the engine rejects: one flag per call,
    none when it runs out. *)
Module MemStore.
Record t := {
  buckets : gmap string (gmap session_node.ID History.t);
  faults : list bool
}.

Definition bucket (b : string) (db : t)
    : gmap session_node.ID History.t :=
  default ∅ (buckets db !! b).

Definition rejects (db : t) : bool :=
  match faults db with
  | f :: _ => f
  | [] => false
  end.

Definition served (db : t) : t :=
  {| buckets := buckets db; faults := tail (faults db) |}.

Definition put (b : string) (r : History.t) (db : t) : t :=
  {| buckets :=
       <[b := <[History.SessionID r := r]> (bucket b db)]> (buckets db);
     faults := faults db |}.

Definition Store (db : t) (b : string) (r : History.t) : t * error :=
  if rejects db then (served db, Some "write rejected")
  else
    match bucket b db !! History.SessionID r with
    | Some _ => (served db, Some "already exists")
    | None => (put b r (served db), None)
    end.

Definition Update (db : t) (b : string) (r : History.t) : t * error :=
  if rejects db then (served db, Some "write rejected")
  else (put b r (served db), None).

(** The records of a collection, in storage order. *)
Definition records (b : string) (db : t) : list History.t :=
  (map_to_list (bucket b db)).*2.

Definition GetAllFrom (db : t) (b : string)
    : t * list History.t * error :=
  if rejects db then (served db, [], Some "read rejected")
  else (served db, records b db, None).

(** Every record sits under its own Session ID, as in any store written
    through [Store] and [Update] only. *)
Definition keyed (db : t) : Prop :=
  ∀ (b : string) (k : session_node.ID) (r : History.t),
    bucket b db !! k = Some r -> History.SessionID r = k.

Definition empty : t := {| buckets := ∅; faults := [] |}.
End MemStore.

#[export] Instance MemStore_Storer : Storer MemStore.t :=
  {| Store := MemStore.Store;
     Update := MemStore.Update;
     GetAllFrom := MemStore.GetAllFrom |}.

(** ** Event sequences for one session *)

Section Sequences.

Definition is_create (id : session_node.ID) (ev : Event) : bool :=
  match ev with
  | AppTopicSession e =>
      match session_event.Status_ e with
      | session_event.CreatedStatus => bool_decide (session_event.ID e = id)
      | _ => false
      end
  | AppTopicConnectionSession e =>
      match connection.Status_ e with
      | connection.SessionCreatedStatus =>
          bool_decide
            (connection.SessionID (connection.SessionInfo_ e) = id)
      | _ => false
      end
  | _ => false
  end.

Definition is_end (id : session_node.ID) (ev : Event) : bool :=
  match ev with
  | AppTopicSession e =>
      match session_event.Status_ e with
      | session_event.RemovedStatus => bool_decide (session_event.ID e = id)
      | _ => false
      end
  | AppTopicConnectionSession e =>
      match connection.Status_ e with
      | connection.SessionEndedStatus =>
          bool_decide
            (connection.SessionID (connection.SessionInfo_ e) = id)
      | _ => false
      end
  | _ => false
  end.

Definition is_statistics (id : session_node.ID) (ev : Event) : bool :=
  match ev with
  | AppTopicConnectionStatistics e =>
      bool_decide
        (connection.SessionID (connection.StatsSessionInfo e) = id)
  | _ => false
  end.

Definition is_payment (id : session_node.ID) (ev : Event) : bool :=
  match ev with
  | AppTopicInvoicePaid e => bool_decide (pingpong_event.SessionID e = id)
  | _ => false
  end.

(** Create first, end last, statistics and payments in between. *)
Definition valid_order (id : session_node.ID) (evs : list Event) : Prop :=
  ∃ c mid e,
    evs = c :: mid ++ [e] ∧
    is_create id c = true ∧
    forallb (fun ev => is_statistics id ev || is_payment id ev) mid = true ∧
    is_end id e = true.

(** The counters of the last statistics event of a sequence, and the
    total of its last payment. *)
Fixpoint last_statistics (evs : list Event) (acc : option (N * N))
    : option (N * N) :=
  match evs with
  | [] => acc
  | AppTopicConnectionStatistics e :: evs' =>
      last_statistics evs'
        (Some (connection.BytesSent (connection.Stats e),
               connection.BytesReceived (connection.Stats e)))
  | _ :: evs' => last_statistics evs' acc
  end.

Fixpoint last_payment (evs : list Event) (acc : option N) : option N :=
  match evs with
  | [] => acc
  | AppTopicInvoicePaid e :: evs' =>
      last_payment evs'
        (Some (pingpong_event.AgreementTotal (pingpong_event.Invoice_ e)))
  | _ :: evs' => last_payment evs' acc
  end.
End Sequences.

(** ** Records the handlers build *)

Section Rows.
Context {DB : Type} `{!Storer DB}.
Variable Hex : common.Address -> string.
Variable FromAddress : string -> identity.Identity.

(** The state after one reading of the clock. *)
Definition tick (s : Storage DB) : Storage DB :=
  with_timeGetter (fun n => timeGetter s (S n)) s.

(** The record the end transition hands to [Update]. *)
Definition ended_row (s : Storage DB) (row : History.t) : History.t :=
  History.with_Status History.StatusCompleted
    (History.with_Updated (time.UTC (timeGetter s 0)) row).

(** The record the create transition hands to [Store]. *)
Definition created_row (row : History.t) : History.t :=
  History.with_Status History.StatusNew row.

(** The record the payment consumer hands to [Update]. *)
Definition paid_row (s : Storage DB)
    (e : pingpong_event.AppEventInvoicePaid) (row : History.t)
    : History.t :=
  History.with_Tokens
    (pingpong_event.AgreementTotal (pingpong_event.Invoice_ e))
    (History.with_Updated (time.UTC (timeGetter s 0)) row).

(** The record the statistics consumer writes back. *)
Definition statistics_row (e : connection.AppEventConnectionStatistics)
    (row : History.t) : History.t :=
  History.with_DataReceived
    (connection.BytesReceived (connection.Stats e))
    (History.with_DataSent (connection.BytesSent (connection.Stats e)) row).

(** The record a connection-level created event inserts. *)
Definition consumer_history (info : connection.SessionInfo) : History.t :=
  {| History.SessionID := connection.SessionID info;
     History.Direction_ := History.DirectionConsumer;
     History.ConsumerID := connection.ConsumerID info;
     History.AccountantID := Hex (connection.AccountantID info);
     History.ProviderID :=
       FromAddress (market.ProviderID (connection.Proposal info));
     History.ServiceType := market.ServiceType (connection.Proposal info);
     History.ProviderCountry :=
       market.Country
         (market.GetLocation
            (market.ServiceDefinition_ (connection.Proposal info)));
     History.DataSent := 0%N;
     History.DataReceived := 0%N;
     History.Tokens := 0%N;
     History.Status_ := History.StatusUnset;
     History.Started := time.UTC (connection.StartedAt info);
     History.Updated := time.zero |}.

(** The record a service-level event inserts for a session the lookup
    port knows. *)
Definition provider_history (id : session_node.ID)
    (sess : session_node.Session) : History.t :=
  {| History.SessionID := id;
     History.Direction_ := History.DirectionProvider;
     History.ConsumerID := session_node.ConsumerID sess;
     History.AccountantID := Hex (session_node.AccountantID sess);
     History.ProviderID :=
       FromAddress (market.ProviderID (session_node.Proposal sess));
     History.ServiceType :=
       market.ServiceType (session_node.Proposal sess);
     History.ProviderCountry :=
       market.Country
         (market.GetLocation
            (market.ServiceDefinition_ (session_node.Proposal sess)));
     History.DataSent :=
       session_node.Up (session_node.DataTransferred_ sess);
     History.DataReceived :=
       session_node.Down (session_node.DataTransferred_ sess);
     History.Tokens := session_node.TokensEarned sess;
     History.Status_ := History.StatusUnset;
     History.Started := time.UTC (session_node.CreatedAt sess);
     History.Updated := time.zero |}.

(** Two records that differ at most in the byte counters. *)
Definition same_but_counters (a b : History.t) : Prop :=
  History.SessionID a = History.SessionID b ∧
  History.Direction_ a = History.Direction_ b ∧
  History.ConsumerID a = History.ConsumerID b ∧
  History.AccountantID a = History.AccountantID b ∧
  History.ProviderID a = History.ProviderID b ∧
  History.ServiceType a = History.ServiceType b ∧
  History.ProviderCountry a = History.ProviderCountry b ∧
  History.Tokens a = History.Tokens b ∧
  History.Status_ a = History.Status_ b ∧
  History.Started a = History.Started b ∧
  History.Updated a = History.Updated b.

(** Two records that differ at most in [Tokens] and [Updated]. *)
Definition same_but_settlement (a b : History.t) : Prop :=
  History.SessionID a = History.SessionID b ∧
  History.Direction_ a = History.Direction_ b ∧
  History.ConsumerID a = History.ConsumerID b ∧
  History.AccountantID a = History.AccountantID b ∧
  History.ProviderID a = History.ProviderID b ∧
  History.ServiceType a = History.ServiceType b ∧
  History.ProviderCountry a = History.ProviderCountry b ∧
  History.DataSent a = History.DataSent b ∧
  History.DataReceived a = History.DataReceived b ∧
  History.Status_ a = History.Status_ b ∧
  History.Started a = History.Started b.
End Rows.

(** ** The end-to-end property of one session *)

Section EndToEnd.
Variable Hex : common.Address -> string.
Variable FromAddress : string -> identity.Identity.

(** The records of one session among those a bulk read returns. *)
Definition records_of (id : session_node.ID) (rows : list History.t)
    : list History.t :=
  filter (fun r => History.SessionID r = id) rows.

(** After the events [evs] the store holds the record of [id] under its
    key, completed, with the counters and the total the events delivered
    last; in a store keyed by Session ID it is the only record of that
    session in the collection. *)
Definition ends_completed_with_last_values (s : Storage MemStore.t)
    (id : session_node.ID) (evs : list Event) : Prop :=
  ∃ s' tr r,
    deliver Hex FromAddress evs s = Ret tt s' tr ∧
    MemStore.bucket sessionStorageBucketName (storage s') !! id = Some r ∧
    (MemStore.keyed (storage s) ->
     records_of id (MemStore.records sessionStorageBucketName (storage s'))
       = [r]) ∧
    History.SessionID r = id ∧
    History.Status_ r = History.StatusCompleted ∧
    (∀ sent received,
       last_statistics evs None = Some (sent, received) ->
       History.DataSent r = sent ∧ History.DataReceived r = received) ∧
    (∀ total,
       last_payment evs None = Some total -> History.Tokens r = total).

Definition connection_level (ev : Event) : bool :=
  match ev with
  | AppTopicSession _ => false
  | _ => true
  end.
End EndToEnd.

(** ** Concrete sessions *)

Module Scenario.
Definition Hex (a : common.Address) : string := "0xCC".

Definition FromAddress (a : string) : identity.Identity :=
  {| identity.Address := a |}.

Definition clock (n : nat) : time.Time :=
  {| time.instant := 1000 + Z.of_nat n;
     time.location := time.LocalLocation |}.

Definition proposal : market.ServiceProposal :=
  {| market.ProviderID := "0xBB";
     market.ServiceType := "wireguard";
     market.ServiceDefinition_ :=
       {| market.GetLocation := {| market.Country := "LT" |} |} |}.

Definition info : connection.SessionInfo :=
  {| connection.SessionID := "s1";
     connection.ConsumerID := {| identity.Address := "0xAA" |};
     connection.AccountantID := [];
     connection.Proposal := proposal;
     connection.StartedAt :=
       {| time.instant := 900; time.location := time.LocalLocation |} |}.

Definition created : Event :=
  AppTopicConnectionSession
    {| connection.Status_ := connection.SessionCreatedStatus;
       connection.SessionInfo_ := info |}.

Definition ended : Event :=
  AppTopicConnectionSession
    {| connection.Status_ := connection.SessionEndedStatus;
       connection.SessionInfo_ := info |}.

Definition statistics_event : connection.AppEventConnectionStatistics :=
  {| connection.Stats :=
       {| connection.BytesSent := 100; connection.BytesReceived := 50 |};
     connection.StatsSessionInfo := info |}.

Definition statistics : Event :=
  AppTopicConnectionStatistics statistics_event.

Definition paid_event : pingpong_event.AppEventInvoicePaid :=
  {| pingpong_event.SessionID := "s1";
     pingpong_event.Invoice_ := {| pingpong_event.AgreementTotal := 5 |} |}.

Definition paid : Event := AppTopicInvoicePaid paid_event.

(** A session the lookup port knows, with nothing transferred yet. *)
Definition session : session_node.Session :=
  {| session_node.ConsumerID := {| identity.Address := "0xAA" |};
     session_node.AccountantID := [];
     session_node.Proposal := proposal;
     session_node.DataTransferred_ :=
       {| session_node.Up := 0; session_node.Down := 0 |};
     session_node.TokensEarned := 0;
     session_node.CreatedAt :=
       {| time.instant := 900; time.location := time.LocalLocation |} |}.

Definition service_created : Event :=
  AppTopicSession
    {| session_event.Status_ := session_event.CreatedStatus;
       session_event.ID := "s1" |}.

Definition service_removed_event : session_event.AppEventSession :=
  {| session_event.Status_ := session_event.RemovedStatus;
     session_event.ID := "s1" |}.

Definition service_removed : Event := AppTopicSession service_removed_event.

Definition nobody (id : session_node.ID) : option session_node.Session :=
  None.

Definition known (id : session_node.ID) : option session_node.Session :=
  if bool_decide (id = "s1") then Some session else None.

(** A store whose calls all succeed, and stores that reject their first
    or their second call. *)
Definition reliable : MemStore.t := MemStore.empty.

Definition rejects_first : MemStore.t :=
  {| MemStore.buckets := ∅; MemStore.faults := [true] |}.

Definition rejects_second : MemStore.t :=
  {| MemStore.buckets := ∅; MemStore.faults := [false; true] |}.

(** A consumer-side repository right after start. *)
Definition consumer_node (db : MemStore.t) : Storage MemStore.t :=
  NewSessionStorage db clock nobody.

(** A provider-side repository whose session manager knows session s1. *)
Definition provider_node (db : MemStore.t) : Storage MemStore.t :=
  NewSessionStorage db clock known.

Definition run (evs : list Event) (s : Storage MemStore.t)
    : Result (Storage MemStore.t) unit :=
  deliver Hex FromAddress evs s.

(** The state a run ends in; the start state when it does not return. *)
Definition after (evs : list Event) (s : Storage MemStore.t)
    : Storage MemStore.t :=
  match run evs s with
  | Ret _ s' _ => s'
  | _ => s
  end.

Definition trace_of (evs : list Event) (s : Storage MemStore.t)
    : list Action :=
  match run evs s with
  | Ret _ _ tr | Panic _ tr | Blocked tr => tr
  end.

Definition persisted (s : Storage MemStore.t) : option History.t :=
  MemStore.bucket sessionStorageBucketName (storage s) !! "s1".

(** The record of session s1 right after its created event. *)
Definition fresh_row : History.t := consumer_history Hex FromAddress info.

(** Session s1 created and stored, the store reliable. *)
Definition active : Storage MemStore.t :=
  after [created] (consumer_node reliable).

(** Session s1 created and stored, the next call to the store rejected. *)
Definition active_failing : Storage MemStore.t :=
  after [created] (consumer_node rejects_second).

(** Session s1 created, its [Store] rejected. *)
Definition unstored : Storage MemStore.t :=
  after [created] (consumer_node rejects_first).

Definition service_created_event : session_event.AppEventSession :=
  {| session_event.Status_ := session_event.CreatedStatus;
     session_event.ID := "s1" |}.

Definition service_acknowledged_event : session_event.AppEventSession :=
  {| session_event.Status_ := session_event.AcknowledgedStatus;
     session_event.ID := "s1" |}.

(** The provider record of session s1 as the lookup port gives it. *)
Definition provider_row : History.t :=
  provider_history Hex FromAddress "s1" session.
End Scenario.

(** ** Events and the sessions they name *)

(** The Session ID an event is about. *)
Definition event_session (ev : Event) : session_node.ID :=
  match ev with
  | AppTopicSession e => session_event.ID e
  | AppTopicConnectionSession e =>
      connection.SessionID (connection.SessionInfo_ e)
  | AppTopicConnectionStatistics e =>
      connection.SessionID (connection.StatsSessionInfo e)
  | AppTopicInvoicePaid e => pingpong_event.SessionID e
  end.

(** Events that never insert a record: statistics, payments and the
    connection-level ended event. *)
Definition is_update_or_connection_end (ev : Event) : bool :=
  match ev with
  | AppTopicSession _ => false
  | AppTopicConnectionSession e =>
      match connection.Status_ e with
      | connection.SessionEndedStatus => true
      | _ => false
      end
  | AppTopicConnectionStatistics _ => true
  | AppTopicInvoicePaid _ => true
  end.

(** The calls to the Persistence Port of a run, in order. *)
Definition port_calls (tr : list Action) : list Action :=
  List.filter is_port_action tr.

Definition is_delete_action (a : Action) : bool :=
  match a with
  | ATableDelete _ => true
  | _ => false
  end.

(** Two records that differ at most in [Status] and [Updated]. *)
Definition same_but_lifecycle (a b : History.t) : Prop :=
  History.SessionID a = History.SessionID b ∧
  History.Direction_ a = History.Direction_ b ∧
  History.ConsumerID a = History.ConsumerID b ∧
  History.AccountantID a = History.AccountantID b ∧
  History.ProviderID a = History.ProviderID b ∧
  History.ServiceType a = History.ServiceType b ∧
  History.ProviderCountry a = History.ProviderCountry b ∧
  History.DataSent a = History.DataSent b ∧
  History.DataReceived a = History.DataReceived b ∧
  History.Tokens a = History.Tokens b ∧
  History.Started a = History.Started b.

(** ** Subscription to the event bus *)

(** Modelled from the spec: the topics of the four event kinds; the
    constants are declared by the publishing packages. *)
Module eventbus.
Inductive Topic :=
| AppTopicSession
| AppTopicConnectionSession
| AppTopicConnectionStatistics
| AppTopicInvoicePaid.
End eventbus.

Section Subscription.
Context {DB : Type} `{!Storer DB}.
Variable Hex : common.Address -> string.
Variable FromAddress : string -> identity.Identity.

(** A consumer handed to the bus, by the payload it takes. *)
Inductive Handler :=
| SessionHandler (f : session_event.AppEventSession -> @M DB unit)
| ConnectionSessionHandler
    (f : connection.AppEventConnectionSession -> @M DB unit)
| ConnectionStatisticsHandler
    (f : connection.AppEventConnectionStatistics -> @M DB unit)
| InvoicePaidHandler (f : pingpong_event.AppEventInvoicePaid -> @M DB unit).

(** [eventbus.Subscriber]: registering a handler is a transition of the
    bus that can be refused. *)
Class Subscriber (B : Type) := {
  bus_Subscribe : B -> eventbus.Topic -> Handler -> B * error
}.

Context {B : Type} `{!Subscriber B}.

(** The four registrations of [Subscribe], in source order. *)
Definition subscriptions : list (eventbus.Topic * Handler) :=
  [(eventbus.AppTopicSession,
    SessionHandler (consumeServiceSessionEvent Hex FromAddress));
   (eventbus.AppTopicConnectionSession,
    ConnectionSessionHandler (consumeConnectionSessionEvent Hex FromAddress));
   (eventbus.AppTopicConnectionStatistics,
    ConnectionStatisticsHandler consumeConnectionStatisticsEvent);
   (eventbus.AppTopicInvoicePaid,
    InvoicePaidHandler consumeConnectionSpendingEvent)].

(** One registration, as a call on the bus. *)
Definition register (bus : B) (r : eventbus.Topic * Handler) : B * error :=
  bus_Subscribe bus r.1 r.2.

(** [Subscribe]: the bus after the call and the error returned. *)
Definition Subscribe (bus : B) : B * error :=
  let '(bus1, err1) :=
    bus_Subscribe bus eventbus.AppTopicSession
      (SessionHandler (consumeServiceSessionEvent Hex FromAddress)) in
  match err1 with
  | Some e => (bus1, Some e)
  | None =>
      let '(bus2, err2) :=
        bus_Subscribe bus1 eventbus.AppTopicConnectionSession
          (ConnectionSessionHandler
             (consumeConnectionSessionEvent Hex FromAddress)) in
      match err2 with
      | Some e => (bus2, Some e)
      | None =>
          let '(bus3, err3) :=
            bus_Subscribe bus2 eventbus.AppTopicConnectionStatistics
              (ConnectionStatisticsHandler consumeConnectionStatisticsEvent) in
          match err3 with
          | Some e => (bus3, Some e)
          | None =>
              bus_Subscribe bus3 eventbus.AppTopicInvoicePaid
                (InvoicePaidHandler consumeConnectionSpendingEvent)
          end
      end
  end.
End Subscription.

(** A bus to run against: it keeps the topics it registered and refuses
    the registrations its schedule says, one flag per call. *)
Module MemBus.
Record t := { registered : list eventbus.Topic; refusals : list bool }.

Definition Subscribe {H : Type} (bus : t) (topic : eventbus.Topic) (h : H)
    : t * error :=
  match refusals bus with
  | true :: rest =>
      ({| registered := registered bus; refusals := rest |},
       Some "subscription refused")
  | _ =>
      ({| registered := registered bus ++ [topic];
          refusals := tail (refusals bus) |}, None)
  end.
End MemBus.

#[export] Instance MemBus_Subscriber : Subscriber (DB := MemStore.t) MemBus.t :=
  {| bus_Subscribe := MemBus.Subscribe |}.

(** * Release of the Debian packages (ci/release/debian.go) *)

(** ** The string functions the release uses *)

(** Modelled from the Go standard library: [strings.Replace] and
    [strings.HasSuffix] on strings as sequences of bytes. *)
Module strings.

(** [s[n:]] *)
Fixpoint drop (n : nat) (s : string) : string :=
  match n, s with
  | S n', String _ s' => drop n' s'
  | _, _ => s
  end.

(** [s[:n]] *)
Fixpoint take (n : nat) (s : string) : string :=
  match n, s with
  | S n', String c s' => String c (take n' s')
  | _, _ => EmptyString
  end.

Definition HasSuffix (s suffix : string) : bool :=
  (String.length suffix <=? String.length s)%nat &&
  String.eqb (drop (String.length s - String.length suffix) s) suffix.

(** How many replacements are still allowed; [None] is no bound. *)
Definition allowed (limit : option nat) : bool :=
  match limit with
  | Some O => false
  | _ => true
  end.

Definition spent (limit : option nat) : option nat :=
  match limit with
  | Some n => Some (Nat.pred n)
  | None => None
  end.

(** The scan of [Replace] for a non-empty [old]: left to right, each
    match replaced by [new] and stepped over, [skip] being the bytes of
    the last match still to step over. *)
Fixpoint replace_from (skip : nat) (limit : option nat) (old new s : string)
    : string :=
  match s with
  | EmptyString => EmptyString
  | String c s' =>
      match skip with
      | S k => replace_from k limit old new s'
      | O =>
          if allowed limit && String.prefix old s
          then new ++ replace_from (String.length old - 1) (spent limit)
                        old new s'
          else String c (replace_from 0 limit old new s')
      end
  end.

(** The value of a byte. *)
Definition byte (c : Ascii.ascii) : N := Ascii.N_of_ascii c.

(** Whether [s] starts with a byte between [lo] and [hi]. *)
Definition continues (lo hi : N) (s : string) : bool :=
  match s with
  | String c _ => (lo <=? byte c)%N && (byte c <=? hi)%N
  | EmptyString => false
  end.

(** The width [utf8.DecodeRuneInString] gives the text [s]: the bytes of
    the UTF-8 sequence it starts with, a byte that starts no well-formed
    sequence counting for one. *)
Definition rune_width (s : string) : nat :=
  match s with
  | EmptyString => 0
  | String c0 s1 =>
      let b0 := byte c0 in
      let '(size, lo, hi) :=
        if (b0 <? 0xC2)%N then (1, 0, 0)%N
        else if (b0 <=? 0xDF)%N then (2, 0x80, 0xBF)%N
        else if (b0 =? 0xE0)%N then (3, 0xA0, 0xBF)%N
        else if (b0 =? 0xED)%N then (3, 0x80, 0x9F)%N
        else if (b0 <=? 0xEF)%N then (3, 0x80, 0xBF)%N
        else if (b0 =? 0xF0)%N then (4, 0x90, 0xBF)%N
        else if (b0 <=? 0xF3)%N then (4, 0x80, 0xBF)%N
        else if (b0 =? 0xF4)%N then (4, 0x80, 0x8F)%N
        else (1, 0, 0)%N in
      if (size =? 1)%N then 1
      else if negb (continues lo hi s1) then 1
      else if (size =? 2)%N then 2
      else if negb (continues 0x80 0xBF (drop 1 s1)) then 1
      else if (size =? 3)%N then 3
      else if negb (continues 0x80 0xBF (drop 2 s1)) then 1
      else 4
  end.

(** [Replace] with an empty [old]: [new] goes before every UTF-8 sequence
    and after the last one; [pending] is the bytes of the current sequence
    still to copy. *)
Fixpoint insert_around (pending : nat) (limit : option nat)
    (new s : string) : string :=
  match s with
  | EmptyString => if allowed limit then new else EmptyString
  | String c s' =>
      match pending with
      | S k => String c (insert_around k limit new s')
      | O =>
          if allowed limit
          then new ++ String c (insert_around (rune_width s - 1)
                                  (spent limit) new s')
          else s
      end
  end.

(** [strings.Replace(s, old, new, n)]; a negative [n] is no bound. *)
Definition Replace (s old new : string) (n : Z) : string :=
  if String.eqb old new || (n =? 0)%Z then s
  else
    let limit := if (n <? 0)%Z then None else Some (Z.to_nat n) in
    match old with
    | EmptyString => insert_around 0 limit new s
    | String _ _ => replace_from 0 limit old new s
    end.

(** Whether a byte occurs in a string. *)
Fixpoint occurs (c : Ascii.ascii) (s : string) : bool :=
  match s with
  | EmptyString => false
  | String c' s' => Ascii.eqb c c' || occurs c s'
  end.
End strings.

(** ** The release *)

Module release.

Record releaseDebianOpts := {
  repository : string;
  version : string;
  buildNumber : string
}.

Definition ppaVersion (buildVersion : string) : string :=
  let ver := strings.Replace buildVersion "-rc" "~rc" (-1) in
  let ver :=
    if strings.HasSuffix ver "~rc"
    then strings.Replace ver "~rc" "~rc1" (-1)
    else ver in
  strings.Replace ver "-" "+" (-1).

(** The host the release runs on: [deb.TermsTemplateFile] and the run of
    a shell command are transitions of it that can fail. *)
Class Host (W : Type) := {
  TermsTemplateFile : W -> string -> W * error;
  Run : W -> string -> W * error
}.

(** The distributions released to, in source order. *)
Definition codenames : list string := ["bionic"; "focal"; "jammy"; "lunar"].

(** The command line of [shell.NewCmdf] for one distribution. *)
Definition release_ppa_command (opts : releaseDebianOpts) (codename : string)
    : string :=
  "bin/release_ppa " ++ repository opts ++ " " ++ version opts ++ " "
    ++ buildNumber opts ++ " " ++ codename.

Section Release.
Context {W : Type} `{!Host W}.

(** The loop of [releaseDebianPPA]: the host after it and the error
    returned. *)
Fixpoint release_each (opts : releaseDebianOpts) (names : list string)
    (w : W) : W * error :=
  match names with
  | [] => (w, None)
  | codename :: rest =>
      let '(w1, err) := Run w (release_ppa_command opts codename) in
      match err with
      | Some e => (w1, Some e)
      | None => release_each opts rest w1
      end
  end.

Definition releaseDebianPPA (opts : releaseDebianOpts) (w : W) : W * error :=
  let '(w1, err) := TermsTemplateFile w "debian/templates" in
  match err with
  | Some e => (w1, Some e)
  | None => release_each opts codenames w1
  end.
End Release.

(** A host to run against: it fails the calls its schedule says, one flag
    per call, and keeps the commands that ran to their end. *)
Record MemHost := { completed : list string; failures : list bool }.

Definition MemHost_call (what : option string) (w : MemHost)
    : MemHost * error :=
  match failures w with
  | true :: rest =>
      ({| completed := completed w; failures := rest |}, Some "exit status 1")
  | _ =>
      ({| completed :=
            match what with
            | Some cmd => (completed w ++ [cmd])%list
            | None => completed w
            end;
          failures := tail (failures w) |}, None)
  end.

#[export] Instance MemHost_Host : Host MemHost :=
  {| TermsTemplateFile := fun w _ => MemHost_call None w;
     Run := fun w cmd => MemHost_call (Some cmd) w |}.
End release.

#[global] Existing Instance release.MemHost_Host.

(** A snapshot release and two hosts: one on which the second command
    fails, one on which the terms template file fails. *)
Module ReleaseScenario.
Definition opts : release.releaseDebianOpts :=
  {| release.repository := "node-dev";
     release.version := "0.10.0~rc1";
     release.buildNumber := "71088039" |}.

Definition focal_fails : release.MemHost :=
  {| release.completed := []; release.failures := [false; false; true] |}.

Definition no_template : release.MemHost :=
  {| release.completed := []; release.failures := [true] |}.
End ReleaseScenario.

(** * Properties *)

(** ** Runs of the two transitions *)

(** Expose the fields of a repository state whose mutex is known. *)
Ltac open_state s :=
  let m := fresh "m" in
  destruct s as [? ? ? m ?]; simpl in *; subst m.

(** Unfold the steps of a handler down to the state transformer. *)
Ltac step_through :=
  unfold consume, consumeServiceSessionEvent, consumeConnectionSessionEvent,
    consumeConnectionStatisticsEvent, consumeConnectionSpendingEvent,
    GetAll, handleEndedEvent, handleCreatedEvent, defer, bind, ret,
    mu_Lock, mu_Unlock, mu_RLock, mu_RUnlock, table_get, table_put,
    table_delete, now, Find, storage_Store, storage_Update,
    storage_GetAllFrom, log;
  simpl.

Section TransitionRuns.
Context {DB : Type} `{!Storer DB}.

Lemma handleEndedEvent_miss (id : session_node.ID) (s : Storage DB) :
  mu s = unlocked ->
  sessionsActive s !! id = None ->
  handleEndedEvent id s =
    Ret tt s
      (critical_section Shared
         [ATableGet id; ALog Warn "Can't find session %v to update"]).
Proof.
  intros Hmu Hget. open_state s. step_through.
  rewrite Hget. reflexivity.
Qed.

Lemma handleEndedEvent_fail (id : session_node.ID) (s : Storage DB)
    (row : History.t) (db' : DB) (msg : string) :
  mu s = unlocked ->
  sessionsActive s !! id = Some row ->
  Update (storage s) sessionStorageBucketName (ended_row s row)
    = (db', Some msg) ->
  handleEndedEvent id s =
    Ret tt (with_storage db' (tick s))
      (critical_section Shared
         [ATableGet id;
          AUpdate sessionStorageBucketName (ended_row s row);
          ALog Error "Session %v update failed"]).
Proof.
  intros Hmu Hget Hupd. open_state s. step_through.
  rewrite Hget. simpl. unfold ended_row in Hupd. simpl in Hupd.
  rewrite Hupd. reflexivity.
Qed.

Lemma handleEndedEvent_ok (id : session_node.ID) (s : Storage DB)
    (row : History.t) (db' : DB) :
  mu s = unlocked ->
  sessionsActive s !! id = Some row ->
  Update (storage s) sessionStorageBucketName (ended_row s row)
    = (db', None) ->
  handleEndedEvent id s =
    Ret tt
      (with_sessionsActive (delete id (sessionsActive s))
         (with_storage db' (tick s)))
      (critical_section Shared
         [ATableGet id;
          AUpdate sessionStorageBucketName (ended_row s row);
          ATableDelete id;
          ALog Debug "Session %v updated with final data"]).
Proof.
  intros Hmu Hget Hupd. open_state s. step_through.
  rewrite Hget. simpl. unfold ended_row in Hupd. simpl in Hupd.
  rewrite Hupd. reflexivity.
Qed.

Lemma handleCreatedEvent_miss (id : session_node.ID) (s : Storage DB) :
  mu s = unlocked ->
  sessionsActive s !! id = None ->
  handleCreatedEvent id s =
    Ret tt s
      (critical_section Exclusive
         [ATableGet id; ALog Warn "Can't find session %v to store"]).
Proof.
  intros Hmu Hget. open_state s. step_through.
  rewrite Hget. reflexivity.
Qed.

Lemma handleCreatedEvent_fail (id : session_node.ID) (s : Storage DB)
    (row : History.t) (db' : DB) (msg : string) :
  mu s = unlocked ->
  sessionsActive s !! id = Some row ->
  Store (storage s) sessionStorageBucketName (created_row row)
    = (db', Some msg) ->
  handleCreatedEvent id s =
    Ret tt (with_storage db' s)
      (critical_section Exclusive
         [ATableGet id;
          AStore sessionStorageBucketName (created_row row);
          ALog Error "Session %v insert failed"]).
Proof.
  intros Hmu Hget Hst. open_state s. step_through.
  rewrite Hget. simpl. unfold created_row in Hst. rewrite Hst.
  reflexivity.
Qed.

Lemma handleCreatedEvent_ok (id : session_node.ID) (s : Storage DB)
    (row : History.t) (db' : DB) :
  mu s = unlocked ->
  sessionsActive s !! id = Some row ->
  Store (storage s) sessionStorageBucketName (created_row row)
    = (db', None) ->
  handleCreatedEvent id s =
    Ret tt
      (with_sessionsActive (<[id := created_row row]> (sessionsActive s))
         (with_storage db' s))
      (critical_section Exclusive
         [ATableGet id;
          AStore sessionStorageBucketName (created_row row);
          ATablePut id (created_row row);
          ALog Debug "Session %v saved"]).
Proof.
  intros Hmu Hget Hst. open_state s. step_through.
  rewrite Hget. simpl. unfold created_row in Hst. rewrite Hst.
  reflexivity.
Qed.
End TransitionRuns.

(** ** Runs of the statistics and payment consumers *)

Section ConsumerRuns.
Context {DB : Type} `{!Storer DB}.

Lemma statistics_miss (e : connection.AppEventConnectionStatistics)
    (s : Storage DB) :
  mu s = unlocked ->
  sessionsActive s
    !! connection.SessionID (connection.StatsSessionInfo e) = None ->
  consumeConnectionStatisticsEvent e s =
    Ret tt s
      (critical_section Exclusive
         [ATableGet (connection.SessionID (connection.StatsSessionInfo e));
          ALog Warn "Received a unknown session update"]).
Proof.
  intros Hmu Hget. open_state s. step_through.
  rewrite Hget. reflexivity.
Qed.

Lemma statistics_hit (e : connection.AppEventConnectionStatistics)
    (s : Storage DB) (row : History.t) :
  let id := connection.SessionID (connection.StatsSessionInfo e) in
  mu s = unlocked ->
  sessionsActive s !! id = Some row ->
  consumeConnectionStatisticsEvent e s =
    Ret tt
      (with_sessionsActive
         (<[id := statistics_row e row]> (sessionsActive s)) s)
      (critical_section Exclusive
         [ATableGet id; ATablePut id (statistics_row e row)]).
Proof.
  intros id Hmu Hget. subst id. open_state s. step_through.
  rewrite Hget. reflexivity.
Qed.

Lemma spending_miss (e : pingpong_event.AppEventInvoicePaid)
    (s : Storage DB) :
  mu s = unlocked ->
  sessionsActive s !! pingpong_event.SessionID e = None ->
  consumeConnectionSpendingEvent e s =
    Ret tt s
      (critical_section Exclusive
         [ATableGet (pingpong_event.SessionID e);
          ALog Warn "Received a unknown session update"]).
Proof.
  intros Hmu Hget. open_state s. step_through.
  rewrite Hget. reflexivity.
Qed.

Lemma spending_fail (e : pingpong_event.AppEventInvoicePaid)
    (s : Storage DB) (row : History.t) (db' : DB) (msg : string) :
  let id := pingpong_event.SessionID e in
  mu s = unlocked ->
  sessionsActive s !! id = Some row ->
  Update (storage s) sessionStorageBucketName (paid_row s e row)
    = (db', Some msg) ->
  consumeConnectionSpendingEvent e s =
    Ret tt (with_storage db' (tick s))
      (critical_section Exclusive
         [ATableGet id;
          AUpdate sessionStorageBucketName (paid_row s e row);
          ALog Error "Session %v update failed"]).
Proof.
  intros id Hmu Hget Hupd. subst id. open_state s. step_through.
  rewrite Hget. simpl. unfold paid_row in Hupd. simpl in Hupd.
  rewrite Hupd. reflexivity.
Qed.

Lemma spending_ok (e : pingpong_event.AppEventInvoicePaid)
    (s : Storage DB) (row : History.t) (db' : DB) :
  let id := pingpong_event.SessionID e in
  mu s = unlocked ->
  sessionsActive s !! id = Some row ->
  Update (storage s) sessionStorageBucketName (paid_row s e row)
    = (db', None) ->
  consumeConnectionSpendingEvent e s =
    Ret tt
      (with_sessionsActive (<[id := paid_row s e row]> (sessionsActive s))
         (with_storage db' (tick s)))
      (critical_section Exclusive
         [ATableGet id;
          AUpdate sessionStorageBucketName (paid_row s e row);
          ATablePut id (paid_row s e row);
          ALog Debug "Session %v updated"]).
Proof.
  intros id Hmu Hget Hupd. subst id. open_state s. step_through.
  rewrite Hget. simpl. unfold paid_row in Hupd. simpl in Hupd.
  rewrite Hupd. reflexivity.
Qed.
End ConsumerRuns.

(** ** Misses, overwrites and failed writes *)

Section Consumers.
Context {DB : Type} `{!Storer DB}.
Variable Hex : common.Address -> string.
Variable FromAddress : string -> identity.Identity.

(** C6: a statistics or payment event for a Session ID with no entry in
    the Active-Session Table is dropped with a warning: the run returns
    the state it started from (table, store and clock untouched, nothing
    kept for later) and its trace holds no call to the Persistence
    Port. *)
Theorem unknown_session_update_dropped (id : session_node.ID) (ev : Event)
    (s : Storage DB) :
  mu s = unlocked ->
  sessionsActive s !! id = None ->
  is_statistics id ev || is_payment id ev = true ->
  let tr :=
    critical_section Exclusive
      [ATableGet id; ALog Warn "Received a unknown session update"] in
  consume Hex FromAddress ev s = Ret tt s tr ∧
  existsb is_port_action tr = false.
Proof.
  intros Hmu Hget Hev tr. split; [| reflexivity].
  destruct ev as [e | e | e | e]; simpl in Hev; try discriminate.
  - rewrite orb_false_r in Hev. apply bool_decide_eq_true in Hev.
    subst id tr. unfold consume. now apply statistics_miss.
  - apply bool_decide_eq_true in Hev. subst id tr.
    unfold consume. now apply spending_miss.
Qed.

(** C8: a statistics event for a session present in the table writes
    back the record with [DataSent] and [DataReceived] set to the
    event's values, whatever they were before, every other field as it
    was; the store is not touched and the trace holds no call to the
    Persistence Port. *)
Theorem statistics_overwrite_counters
    (e : connection.AppEventConnectionStatistics) (s : Storage DB)
    (row : History.t) :
  let id := connection.SessionID (connection.StatsSessionInfo e) in
  mu s = unlocked ->
  sessionsActive s !! id = Some row ->
  ∃ row' tr,
    consumeConnectionStatisticsEvent e s =
      Ret tt (with_sessionsActive (<[id := row']> (sessionsActive s)) s) tr ∧
    History.DataSent row' = connection.BytesSent (connection.Stats e) ∧
    History.DataReceived row'
      = connection.BytesReceived (connection.Stats e) ∧
    same_but_counters row' row ∧
    existsb is_port_action tr = false.
Proof.
  intros id Hmu Hget.
  exists (statistics_row e row). eexists. split.
  - now apply statistics_hit.
  - repeat split.
Qed.

(** C7: a payment event for a session present in the table hands
    [Update] the record with [Tokens] set to the invoice's agreement
    total and [Updated] to the clock reading in UTC.  When [Update]
    succeeds that record is the table entry afterwards; when it fails
    the table is the one before the event, entry included. *)
Theorem payment_updates_tokens (e : pingpong_event.AppEventInvoicePaid)
    (s : Storage DB) (row : History.t) (db' : DB) (err : error) :
  let id := pingpong_event.SessionID e in
  mu s = unlocked ->
  sessionsActive s !! id = Some row ->
  Update (storage s) sessionStorageBucketName (paid_row s e row)
    = (db', err) ->
  ∃ s' tr,
    consumeConnectionSpendingEvent e s = Ret tt s' tr ∧
    match err with
    | None =>
        ∃ row',
          sessionsActive s' !! id = Some row' ∧
          History.Tokens row'
            = pingpong_event.AgreementTotal (pingpong_event.Invoice_ e) ∧
          History.Updated row' = time.UTC (timeGetter s 0) ∧
          same_but_settlement row' row
    | Some _ =>
        sessionsActive s' = sessionsActive s ∧
        sessionsActive s' !! id = Some row
    end.
Proof.
  intros id Hmu Hget Hupd. destruct err as [msg |].
  - do 2 eexists. split.
    + now apply (spending_fail e s row db' msg).
    + simpl. split; [reflexivity | exact Hget].
  - do 2 eexists. split.
    + now apply (spending_ok e s row db').
    + exists (paid_row s e row). simpl. split.
      * apply lookup_insert_eq.
      * repeat split.
Qed.

(** C5: when [Update] fails during the end transition the table is left
    as it was: the entry is not deleted, the mutex is free again, and a
    lookup under the lock right after finds the record. *)
Theorem failed_end_transition_keeps_entry (id : session_node.ID)
    (s : Storage DB) (row : History.t) (db' : DB) (msg : string) :
  mu s = unlocked ->
  sessionsActive s !! id = Some row ->
  Update (storage s) sessionStorageBucketName (ended_row s row)
    = (db', Some msg) ->
  ∃ s' tr,
    handleEndedEvent id s = Ret tt s' tr ∧
    sessionsActive s' = sessionsActive s ∧
    mu s' = unlocked ∧
    bind mu_RLock (fun _ => table_get id) s'
      = Ret (Some row)
          (with_mu {| writer := false; readers := 1 |} s')
          [ARLock; ATableGet id].
Proof.
  intros Hmu Hget Hupd. do 2 eexists. split.
  - now apply (handleEndedEvent_fail id s row db' msg).
  - open_state s. repeat split. step_through. rewrite Hget. reflexivity.
Qed.
End Consumers.

(** ** Lock discipline *)

(** Split a run on the outcome of its lookups and port calls. *)
Ltac split_run :=
  repeat first
    [ rewrite lookup_insert_eq
    | progress simpl
    | match goal with
      | |- context [match ?m !! ?k with _ => _ end] =>
          destruct (m !! k) eqn:?
      | |- context [Update ?db ?b ?r] =>
          destruct (Update db b r) as [? [?|]] eqn:?
      | |- context [Store ?db ?b ?r] =>
          destruct (Store db b r) as [? [?|]] eqn:?
      | |- context [match ?x with _ => _ end] =>
          lazymatch x with
          | context [match _ with _ => _ end] => fail
          | _ => destruct x eqn:?
          end
      end ].

(** Take the steps of a goroutine that are ready to run. *)
Ltac run_on :=
  repeat (progress (cbn [run_steps]; unfold bind; simpl)).

Section Locking.
Context {DB : Type} `{!Storer DB}.
Variable Hex : common.Address -> string.
Variable FromAddress : string -> identity.Identity.

(** A consumer started with the mutex free returns with the mutex free,
    and once a critical section has looked a record up, all later table
    accesses and port calls of the run fall in that section.  The run
    keeps the lock discipline of [guarded] unless it deletes an entry:
    the deletion of the end transition is the table write made with the
    mutex in read mode. *)
Lemma consume_lock_discipline (ev : Event) (s : Storage DB) :
  mu s = unlocked ->
  ∃ s' tr,
    consume Hex FromAddress ev s = Ret tt s' tr ∧
    mu s' = unlocked ∧
    rmw_atomic BeforeLookup tr = true ∧
    guarded None tr = negb (existsb is_delete_action tr).
Proof.
  intros Hmu. open_state s.
  destruct ev as [e | e | e | e]; step_through; split_run;
    do 2 eexists; (split; [reflexivity |]); repeat split.
Qed.

(** The steps of the two transitions, run by one goroutine, are the
    transitions. *)
Lemma handleEndedEvent_steps_run (id : session_node.ID) (s : Storage DB) :
  run_steps (handleEndedEvent_steps id) s = handleEndedEvent id s.
Proof.
  destruct s as [db tg cs [[|] n] tbl];
    unfold handleEndedEvent_steps; cbn [run_steps]; step_through;
    [reflexivity |].
  destruct (tbl !! id) as [row |]; run_on; [| reflexivity].
  match goal with
  | |- context [Update ?d ?b ?r] => destruct (Update d b r) as [db1 [msg |]]
  end; run_on; reflexivity.
Qed.

Lemma handleCreatedEvent_steps_run (id : session_node.ID) (s : Storage DB) :
  run_steps (handleCreatedEvent_steps id) s = handleCreatedEvent id s.
Proof.
  destruct s as [db tg cs [[|] [| n]] tbl];
    unfold handleCreatedEvent_steps; cbn [run_steps]; step_through;
    try reflexivity.
  destruct (tbl !! id) as [row |]; run_on; [| reflexivity].
  match goal with
  | |- context [Store ?d ?b ?r] => destruct (Store d b r) as [db1 [msg |]]
  end; run_on; reflexivity.
Qed.

(** While other goroutines hold the mutex in read mode the end transition
    goes through, deletion included, where the create transition
    waits. *)
Lemma end_transition_beside_readers (id : session_node.ID) (s : Storage DB)
    (row : History.t) (db' : DB) (n : nat) :
  mu s = {| writer := false; readers := S n |} ->
  sessionsActive s !! id = Some row ->
  Update (storage s) sessionStorageBucketName (ended_row s row)
    = (db', None) ->
  handleEndedEvent id s =
    Ret tt
      (with_sessionsActive (delete id (sessionsActive s))
         (with_storage db' (tick s)))
      (critical_section Shared
         [ATableGet id;
          AUpdate sessionStorageBucketName (ended_row s row);
          ATableDelete id;
          ALog Debug "Session %v updated with final data"]) ∧
  handleCreatedEvent id s = Blocked [].
Proof.
  intros Hmu Hget Hupd. destruct s as [db tg cs m tbl]. simpl in *.
  subst m. split; [| reflexivity]. step_through.
  rewrite Hget. simpl. unfold ended_row in Hupd. simpl in Hupd.
  rewrite Hupd. reflexivity.
Qed.

(** Bring the state of a run back to its fields. *)
Ltac settle :=
  cbv beta iota;
  cbn [storage timeGetter currentSessions mu sessionsActive with_storage
       with_timeGetter with_currentSessions with_mu with_sessionsActive].

Lemma interleave_first (rest : list bool) {A : Type} (m : @M DB A)
    (k : A -> Steps) (b : Steps) (s s' : Storage DB) (x : A)
    (tr : list Action) :
  m s = Ret x s' tr ->
  interleave (true :: rest) (Step m k) b s =
    match interleave rest (k x) b s' with
    | Some (a', b', s'', tr') =>
        Some (a', b', s'', (map (pair true) tr ++ tr')%list)
    | None => None
    end.
Proof. intros Hm. cbn [interleave]. now rewrite Hm. Qed.

Lemma interleave_second (rest : list bool) {A : Type} (m : @M DB A)
    (k : A -> Steps) (a : Steps) (s s' : Storage DB) (x : A)
    (tr : list Action) :
  m s = Ret x s' tr ->
  interleave (false :: rest) a (Step m k) s =
    match interleave rest a (k x) s' with
    | Some (a', b', s'', tr') =>
        Some (a', b', s'', (map (pair false) tr ++ tr')%list)
    | None => None
    end.
Proof. intros Hm. cbn [interleave]. now rewrite Hm. Qed.

(** C3: the end transition takes the mutex in read mode only, so two end
    transitions run at once.  Two deliveries of an end event for a session
    of the table, on two goroutines that take turns: both take the mutex,
    both find the entry, both hand the completed record to [Update], and
    each deletes the entry while the other holds the mutex; neither waits
    for the other.  The lookup, the [Update] call and the deletion of one
    end transition are not kept apart from those of the other. *)
Theorem end_transitions_run_at_once (id : session_node.ID) (s : Storage DB)
    (row : History.t) (db1 db2 : DB) :
  mu s = unlocked ->
  sessionsActive s !! id = Some row ->
  Update (storage s) sessionStorageBucketName (ended_row s row)
    = (db1, None) ->
  Update db1 sessionStorageBucketName (ended_row (tick s) row)
    = (db2, None) ->
  interleave (round_robin 7)
    (handleEndedEvent_steps id) (handleEndedEvent_steps id) s =
    Some (Stop, Stop,
          with_sessionsActive (delete id (sessionsActive s))
            (with_storage db2 (tick (tick s))),
          [(true, ARLock); (false, ARLock);
           (true, ATableGet id); (false, ATableGet id);
           (true, AUpdate sessionStorageBucketName (ended_row s row));
           (false,
            AUpdate sessionStorageBucketName (ended_row (tick s) row));
           (true, ATableDelete id); (false, ATableDelete id);
           (true, ALog Debug "Session %v updated with final data");
           (false, ALog Debug "Session %v updated with final data");
           (true, ARUnlock); (false, ARUnlock)]).
Proof.
  intros Hmu Hget Hfirst Hsecond.
  destruct s as [db tg cs m tbl].
  cbn [mu sessionsActive storage] in Hmu, Hget, Hfirst. subst m.
  unfold ended_row, tick in *.
  cbn [timeGetter with_timeGetter] in *.
  cbn [round_robin]. unfold handleEndedEvent_steps.
  (* both take the mutex *)
  erewrite interleave_first by reflexivity. settle.
  erewrite interleave_second by reflexivity. settle.
  (* both find the entry *)
  erewrite interleave_first
    by (unfold table_get; settle; rewrite Hget; reflexivity). settle.
  erewrite interleave_second
    by (unfold table_get; settle; rewrite Hget; reflexivity). settle.
  (* both read the clock *)
  erewrite interleave_first by (unfold now; settle; reflexivity). settle.
  erewrite interleave_second by (unfold now; settle; reflexivity). settle.
  (* both update the store *)
  erewrite interleave_first
    by (unfold storage_Update; settle; rewrite Hfirst; reflexivity). settle.
  erewrite interleave_second
    by (unfold storage_Update; settle; rewrite Hsecond; reflexivity). settle.
  (* both delete the entry, log and give the mutex back *)
  erewrite interleave_first by (unfold table_delete; settle; reflexivity).
  settle.
  erewrite interleave_second by (unfold table_delete; settle; reflexivity).
  settle.
  erewrite interleave_first by reflexivity. settle.
  erewrite interleave_second by reflexivity. settle.
  erewrite interleave_first by (unfold mu_RUnlock; settle; reflexivity).
  settle.
  erewrite interleave_second by (unfold mu_RUnlock; settle; reflexivity).
  settle.
  cbn [interleave map app]. rewrite delete_delete_eq. reflexivity.
Qed.
End Locking.

(** ** The query surface and the create path *)

Section QueryAndCreate.
Context {DB : Type} `{!Storer DB}.
Variable Hex : common.Address -> string.
Variable FromAddress : string -> identity.Identity.

(** C9: [GetAll] returns the records the bulk read of the
    session-history collection yields, or no record and the error when
    the bulk read fails.  Its only action is that bulk read: whatever the
    Active-Session Table holds and whoever holds its mutex, the result is
    the same and the table is left alone. *)
Theorem GetAll_reads_the_store (s : Storage DB) (db' : DB)
    (rows : list History.t) (err : error) :
  GetAllFrom (storage s) sessionStorageBucketName = (db', rows, err) ->
  let result :=
    match err with
    | Some e => ([], Some e)
    | None => (rows, None)
    end in
  GetAll s =
    Ret result (with_storage db' s)
      [AGetAllFrom sessionStorageBucketName] ∧
  ∀ (tbl : gmap session_node.ID History.t) (m : RWMutex),
    GetAll (with_mu m (with_sessionsActive tbl s)) =
      Ret result (with_storage db' (with_mu m (with_sessionsActive tbl s)))
        [AGetAllFrom sessionStorageBucketName].
Proof.
  intros Hread result. subst result. destruct s as [db tg cs m tbl].
  simpl in Hread. split; [| intros tbl' m'];
    step_through; rewrite Hread; now destruct err.
Qed.

(** C10: a connection-level created event inserts a Consumer-direction
    record with [DataSent], [DataReceived] and [Tokens] zero and
    [Updated] the zero time, and the create transition that follows
    looks that record up and hands it to [Store] with those fields as
    they are and the status New: the store of the repository after the
    event is the one this call of [Store] returned.  The entry of the
    table is the stored record when [Store] took it, and the record as
    inserted when it did not. *)
Theorem connection_created_stores_fresh_record
    (e : connection.AppEventConnectionSession) (s : Storage DB)
    (db' : DB) (err : error) :
  let info := connection.SessionInfo_ e in
  let id := connection.SessionID info in
  let row := consumer_history Hex FromAddress info in
  mu s = unlocked ->
  connection.Status_ e = connection.SessionCreatedStatus ->
  Store (storage s) sessionStorageBucketName
    (History.with_Status History.StatusNew row) = (db', err) ->
  ∃ s' stored outcome,
    consumeConnectionSessionEvent Hex FromAddress e s =
      Ret tt s'
        (critical_section Exclusive [ATablePut id row] ++
         critical_section Exclusive
           (ATableGet id :: AStore sessionStorageBucketName stored
              :: outcome)) ∧
    storage s' = db' ∧
    sessionsActive s' =
      <[id := match err with None => stored | Some _ => row end]>
        (sessionsActive s) ∧
    outcome =
      match err with
      | None => [ATablePut id stored; ALog Debug "Session %v saved"]
      | Some _ => [ALog Error "Session %v insert failed"]
      end ∧
    History.Direction_ row = History.DirectionConsumer ∧
    History.DataSent row = 0%N ∧
    History.DataReceived row = 0%N ∧
    History.Tokens row = 0%N ∧
    History.Updated row = time.zero ∧
    stored = History.with_Status History.StatusNew row ∧
    History.Direction_ stored = History.DirectionConsumer ∧
    History.DataSent stored = 0%N ∧
    History.DataReceived stored = 0%N ∧
    History.Tokens stored = 0%N ∧
    History.Updated stored = time.zero.
Proof.
  intros info id row Hmu Hst Hstore. subst row id info. open_state s.
  destruct e as [st info]. simpl in *. subst st.
  step_through. rewrite lookup_insert_eq. simpl.
  unfold consumer_history in Hstore. simpl in Hstore. rewrite Hstore.
  destruct err as [msg |]; simpl; eexists; eexists (created_row _).
  - exists [ALog Error "Session %v insert failed"].
    split; [reflexivity |]. repeat split.
  - exists [ATablePut (connection.SessionID info)
              (created_row (consumer_history Hex FromAddress info));
            ALog Debug "Session %v saved"].
    split; [reflexivity |]. split; [reflexivity |].
    split; [simpl; now rewrite insert_insert_eq |]. repeat split.
Qed.

(** The run of a connection-level created event, by the outcome of
    [Store]: the entry is the fresh record, with the status New when the
    store took it. *)
Lemma connection_created_run (e : connection.AppEventConnectionSession)
    (s : Storage DB) (db' : DB) (err : error) :
  let info := connection.SessionInfo_ e in
  let id := connection.SessionID info in
  let row := consumer_history Hex FromAddress info in
  mu s = unlocked ->
  connection.Status_ e = connection.SessionCreatedStatus ->
  Store (storage s) sessionStorageBucketName (created_row row) = (db', err) ->
  ∃ row1 tr,
    consumeConnectionSessionEvent Hex FromAddress e s =
      Ret tt
        (with_sessionsActive (<[id := row1]> (sessionsActive s))
           (with_storage db' s)) tr ∧
    (row1 = row ∨ row1 = created_row row).
Proof.
  intros info id row Hmu Hst Hstore. subst row id info. open_state s.
  destruct e as [st info]. simpl in *. subst st.
  step_through. rewrite lookup_insert_eq. simpl.
  unfold created_row, consumer_history in Hstore. rewrite Hstore.
  destruct err as [msg |]; simpl; do 2 eexists.
  - split; [reflexivity |]. now left.
  - split; [| now right]. rewrite insert_insert_eq. reflexivity.
Qed.
End QueryAndCreate.


(** ** Duplicate end events *)

Section Duplicates.
Context {DB : Type} `{!Storer DB}.
Variable Hex : common.Address -> string.
Variable FromAddress : string -> identity.Identity.

(** An end event leaves the mutex free and the lookup port alone; when
    its run deleted the entry, the entry is gone afterwards. *)
Lemma end_event_outcome (id : session_node.ID) (ev : Event)
    (s : Storage DB) :
  mu s = unlocked ->
  is_end id ev = true ->
  ∃ s' tr,
    consume Hex FromAddress ev s = Ret tt s' tr ∧
    mu s' = unlocked ∧
    currentSessions s' = currentSessions s ∧
    (In (ATableDelete id) tr -> sessionsActive s' !! id = None).
Proof.
  intros Hmu Hend. open_state s.
  destruct ev as [[st sid] | [st info] | e | e]; simpl in Hend;
    try discriminate; destruct st; try discriminate;
    apply bool_decide_eq_true in Hend; simpl in Hend; subst id;
    step_through; split_run; do 2 eexists;
    (split; [reflexivity |]); repeat split; simpl;
    try (intros Hin; exfalso; intuition discriminate);
    intros _; apply lookup_delete_eq.
Qed.

(** C4, as the code has it: after an end event whose end transition
    succeeded (its run deleted the entry), a second connection-level ended
    event for the same Session ID, or a second service-level removed event
    that the Session Lookup Port no longer finds, returns the state it
    started from without a panic and without any call to the Persistence
    Port. *)
Theorem duplicate_end_is_dropped (id : session_node.ID)
    (first second : Event) (s s1 : Storage DB) (tr1 : list Action)
    (cs : session_node.ID -> option session_node.Session) :
  mu s = unlocked ->
  is_end id first = true ->
  consume Hex FromAddress first s = Ret tt s1 tr1 ->
  In (ATableDelete id) tr1 ->
  is_end id second = true ->
  (connection_level second = false -> cs id = None) ->
  let s2 := with_currentSessions cs s1 in
  ∃ tr2,
    consume Hex FromAddress second s2 = Ret tt s2 tr2 ∧
    existsb is_port_action tr2 = false.
Proof.
  intros Hmu Hfirst Hrun Hdel Hsecond Hcs s2.
  destruct (end_event_outcome id first s Hmu Hfirst)
    as (s1' & tr1' & Hrun' & Hmu1 & _ & Hgone).
  rewrite Hrun in Hrun'. injection Hrun' as <- <-.
  specialize (Hgone Hdel).
  destruct second as [[st sid] | [st info] | e | e]; simpl in Hsecond;
    try discriminate; destruct st; try discriminate;
    apply bool_decide_eq_true in Hsecond; simpl in Hsecond; subst id.
  - specialize (Hcs eq_refl). eexists. split.
    + subst s2. destruct s1 as [db tg cs1 m tbl]. step_through.
      rewrite Hcs. reflexivity.
    + reflexivity.
  - eexists. split.
    + unfold consume, consumeConnectionSessionEvent. simpl.
      apply handleEndedEvent_miss.
      * subst s2. destruct s1. exact Hmu1.
      * subst s2. destruct s1. exact Hgone.
    + reflexivity.
Qed.
End Duplicates.

(** ** Who writes durably *)

Section DurableWrites.
Context {DB : Type} `{!Storer DB}.
Variable Hex : common.Address -> string.
Variable FromAddress : string -> identity.Identity.

(** C2, as the code has it: [Store] is called only on delivery of a
    create event; a statistics event leaves the store as it is and calls
    nothing on the Persistence Port; a payment event for a session in the
    table hands its record to [Update] whatever the record's status, also
    when the create transition's [Store] has not succeeded. *)
Theorem store_on_create_update_on_payment :
  (∀ (ev : Event) (s : Storage DB),
     mu s = unlocked ->
     ∃ s' tr,
       consume Hex FromAddress ev s = Ret tt s' tr ∧
       (existsb is_store_action tr = true -> ∃ id, is_create id ev = true)) ∧
  (∀ (e : connection.AppEventConnectionStatistics) (s : Storage DB),
     mu s = unlocked ->
     ∃ s' tr,
       consumeConnectionStatisticsEvent e s = Ret tt s' tr ∧
       storage s' = storage s ∧
       existsb is_port_action tr = false) ∧
  (∀ (e : pingpong_event.AppEventInvoicePaid) (s : Storage DB)
     (row : History.t),
     mu s = unlocked ->
     sessionsActive s !! pingpong_event.SessionID e = Some row ->
     ∃ s' tr,
       consumeConnectionSpendingEvent e s = Ret tt s' tr ∧
       In (AUpdate sessionStorageBucketName (paid_row s e row)) tr).
Proof.
  split; [| split].
  - intros ev s Hmu. open_state s.
    destruct ev as [[st sid] | [st info] | e | e]; try destruct st;
      step_through; split_run; do 2 eexists;
      (split; [reflexivity |]); simpl; intros Hst; try discriminate;
      eexists; simpl; apply bool_decide_eq_true; reflexivity.
  - intros e s Hmu. open_state s. step_through. split_run;
      do 2 eexists; (split; [reflexivity |]); split; reflexivity.
  - intros e s row Hmu Hget.
    destruct (Update (storage s) sessionStorageBucketName (paid_row s e row))
      as [db' [msg |]] eqn:Hupd.
    + do 2 eexists. split.
      * now apply (spending_fail e s row db' msg).
      * simpl. auto.
    + do 2 eexists. split.
      * now apply (spending_ok e s row db').
      * simpl. auto.
Qed.
End DurableWrites.


(** ** A whole session against the key-value store *)

Section WholeSession.
Variable Hex : common.Address -> string.
Variable FromAddress : string -> identity.Identity.

Lemma MemStore_Update_served (db : MemStore.t) (b : string) (r : History.t) :
  MemStore.faults db = [] ->
  Update db b r = (MemStore.put b r (MemStore.served db), None) ∧
  MemStore.faults (MemStore.put b r (MemStore.served db)) = [].
Proof.
  intros Hf. simpl. unfold MemStore.Update, MemStore.rejects.
  rewrite Hf. split; reflexivity.
Qed.

Lemma MemStore_keyed_put (db : MemStore.t) (b : string) (r : History.t) :
  MemStore.keyed db -> MemStore.keyed (MemStore.put b r (MemStore.served db)).
Proof.
  intros Hk b' k r'. unfold MemStore.bucket, MemStore.put. simpl.
  destruct (decide (b = b')) as [<- | Hb].
  - rewrite lookup_insert_eq. simpl.
    destruct (decide (History.SessionID r = k)) as [<- | Hne].
    + rewrite lookup_insert_eq. now intros [= <-].
    + rewrite lookup_insert_ne by exact Hne. apply Hk.
  - rewrite lookup_insert_ne by exact Hb. apply Hk.
Qed.

Lemma MemStore_Store_served (db : MemStore.t) (b : string) (r : History.t) :
  MemStore.faults db = [] ->
  ∃ db' err,
    Store db b r = (db', err) ∧
    MemStore.faults db' = [] ∧
    (MemStore.keyed db -> MemStore.keyed db').
Proof.
  intros Hf. simpl. unfold MemStore.Store, MemStore.rejects. rewrite Hf.
  destruct (MemStore.bucket b db !! History.SessionID r);
    do 2 eexists; (split; [reflexivity |]); simpl; rewrite Hf;
    (split; [reflexivity |]).
  - intros Hk. exact Hk.
  - apply MemStore_keyed_put.
Qed.

(** In a keyed store the record under a Session ID is the only record of
    that session in its collection. *)
Lemma records_of_keyed (db : MemStore.t) (b : string)
    (id : session_node.ID) (r : History.t) :
  MemStore.keyed db ->
  MemStore.bucket b db !! id = Some r ->
  records_of id (MemStore.records b db) = [r].
Proof.
  intros Hk Hget. unfold records_of, MemStore.records.
  apply Permutation_singleton_r.
  rewrite <- (map_to_list_delete _ _ _ Hget). rewrite fmap_cons. simpl.
  rewrite filter_cons_True by exact (Hk b id r Hget).
  destruct (filter (λ r0, History.SessionID r0 = id)
              (map_to_list (delete id (MemStore.bucket b db))).*2)
    as [| x rest] eqn:Hrest; [reflexivity |].
  assert (Hx : x ∈ filter (λ r0, History.SessionID r0 = id)
                 (map_to_list (delete id (MemStore.bucket b db))).*2)
    by (rewrite Hrest; apply list_elem_of_here).
  apply list_elem_of_filter in Hx as [Hid Hin].
  apply list_elem_of_fmap in Hin as ([k x'] & -> & Hin).
  apply elem_of_map_to_list in Hin. simpl in Hid.
  destruct (decide (k = id)) as [-> | Hne].
  - rewrite lookup_delete_eq in Hin. discriminate.
  - rewrite lookup_delete_ne in Hin by congruence.
    exfalso. apply Hne. rewrite <- Hid. symmetry. exact (Hk b k x' Hin).
Qed.

Lemma MemStore_bucket_put (db : MemStore.t) (b : string) (r : History.t) :
  MemStore.bucket b (MemStore.put b r db) !! History.SessionID r = Some r.
Proof.
  unfold MemStore.bucket, MemStore.put. simpl.
  rewrite lookup_insert_eq. simpl. apply lookup_insert_eq.
Qed.

Lemma last_statistics_acc (evs : list Event) (acc : option (N * N)) :
  last_statistics evs acc =
    match last_statistics evs None with
    | Some v => Some v
    | None => acc
    end.
Proof.
  revert acc. induction evs as [| ev evs IH]; intros acc; [reflexivity |].
  destruct ev; simpl; try apply IH.
  rewrite IH. symmetry. rewrite IH. now destruct (last_statistics evs None).
Qed.

Lemma last_payment_acc (evs : list Event) (acc : option N) :
  last_payment evs acc =
    match last_payment evs None with
    | Some v => Some v
    | None => acc
    end.
Proof.
  revert acc. induction evs as [| ev evs IH]; intros acc; [reflexivity |].
  destruct ev; simpl; try apply IH.
  rewrite IH. symmetry. rewrite IH. now destruct (last_payment evs None).
Qed.

Lemma last_statistics_session_end (evs : list Event)
    (e : connection.AppEventConnectionSession) (acc : option (N * N)) :
  last_statistics (evs ++ [AppTopicConnectionSession e]) acc
    = last_statistics evs acc.
Proof.
  revert acc. induction evs as [| ev evs IH]; intros acc; [reflexivity |].
  destruct ev; simpl; apply IH.
Qed.

Lemma last_payment_session_end (evs : list Event)
    (e : connection.AppEventConnectionSession) (acc : option N) :
  last_payment (evs ++ [AppTopicConnectionSession e]) acc
    = last_payment evs acc.
Proof.
  revert acc. induction evs as [| ev evs IH]; intros acc; [reflexivity |].
  destruct ev; simpl; apply IH.
Qed.

Lemma deliver_cons_ret (ev : Event) (evs : list Event)
    (s s1 s2 : Storage MemStore.t) (t1 t2 : list Action) :
  consume Hex FromAddress ev s = Ret tt s1 t1 ->
  deliver Hex FromAddress evs s1 = Ret tt s2 t2 ->
  deliver Hex FromAddress (ev :: evs) s = Ret tt s2 (t1 ++ t2).
Proof.
  intros H1 H2. simpl. unfold bind. now rewrite H1, H2.
Qed.

Lemma deliver_app_ret (evs1 evs2 : list Event)
    (s s1 s2 : Storage MemStore.t) (t1 t2 : list Action) :
  deliver Hex FromAddress evs1 s = Ret tt s1 t1 ->
  deliver Hex FromAddress evs2 s1 = Ret tt s2 t2 ->
  deliver Hex FromAddress (evs1 ++ evs2) s = Ret tt s2 (t1 ++ t2).
Proof.
  revert s t1. induction evs1 as [| ev evs1 IH]; intros s t1 H1 H2.
  - injection H1 as <- <-. exact H2.
  - simpl in H1. unfold bind in H1.
    destruct (consume Hex FromAddress ev s) as [[] sa ta | |] eqn:Hev;
      try discriminate.
    destruct (deliver Hex FromAddress evs1 sa) as [[] sb tb | |] eqn:Hrest;
      try discriminate.
    injection H1 as <- <-.
    rewrite <- app_assoc. simpl.
    apply (deliver_cons_ret ev (evs1 ++ evs2) s sa s2 ta (tb ++ t2) Hev).
    now apply (IH sa tb).
Qed.

(** Statistics and payments of a session in the table, delivered to a
    store that rejects nothing: the entry ends with the counters and the
    total delivered last. *)
Lemma deliver_updates (id : session_node.ID) (mid : list Event) :
  ∀ (s : Storage MemStore.t) (row : History.t),
    mu s = unlocked ->
    MemStore.faults (storage s) = [] ->
    sessionsActive s !! id = Some row ->
    History.SessionID row = id ->
    forallb (fun ev => is_statistics id ev || is_payment id ev) mid = true ->
    ∃ s' tr row',
      deliver Hex FromAddress mid s = Ret tt s' tr ∧
      mu s' = unlocked ∧
      MemStore.faults (storage s') = [] ∧
      (MemStore.keyed (storage s) -> MemStore.keyed (storage s')) ∧
      sessionsActive s' !! id = Some row' ∧
      History.SessionID row' = id ∧
      (History.DataSent row', History.DataReceived row')
        = default (History.DataSent row, History.DataReceived row)
            (last_statistics mid None) ∧
      History.Tokens row'
        = default (History.Tokens row) (last_payment mid None).
Proof.
  induction mid as [| ev mid IH]; intros s row Hmu Hf Hget Hid Hall.
  - exists s, [], row.
    split; [reflexivity |]. split; [exact Hmu |]. split; [exact Hf |].
    split; [tauto |]. split; [exact Hget |]. split; [exact Hid |].
    split; reflexivity.
  - simpl in Hall. apply andb_true_iff in Hall as [Hev Hall].
    destruct ev as [e | e | e | e]; simpl in Hev; try discriminate.
    + rewrite orb_false_r in Hev. apply bool_decide_eq_true in Hev.
      pose proof (statistics_hit e s row Hmu) as Hrun. simpl in Hrun.
      rewrite Hev in Hrun. specialize (Hrun Hget).
      set (s1 := with_sessionsActive
                   (<[id := statistics_row e row]> (sessionsActive s)) s)
        in *.
      assert (Hmu1 : mu s1 = unlocked) by (destruct s; exact Hmu).
      assert (Hf1 : MemStore.faults (storage s1) = [])
        by (destruct s; exact Hf).
      assert (Hget1 : sessionsActive s1 !! id = Some (statistics_row e row))
        by (destruct s; apply lookup_insert_eq).
      destruct (IH s1 (statistics_row e row) Hmu1 Hf1 Hget1 Hid Hall)
        as (s' & tr & row' & Hrest & Hmu' & Hf' & Hk' & Hget' & Hid' & Hst
            & Hpay).
      eexists s', _, row'.
      split;
        [apply deliver_cons_ret with (s1 := s1); [exact Hrun | exact Hrest] |].
      split; [exact Hmu' |]. split; [exact Hf' |].
      split; [intros Hk; apply Hk'; destruct s; exact Hk |].
      split; [exact Hget' |]. split; [exact Hid' |].
      split; [| exact Hpay].
      simpl. rewrite last_statistics_acc. rewrite Hst.
      now destruct (last_statistics mid None).
    + apply bool_decide_eq_true in Hev.
      destruct (MemStore_Update_served (storage s) sessionStorageBucketName
                  (paid_row s e row) Hf) as [Hupd Hf0].
      pose proof
        (spending_ok e s row
           (MemStore.put sessionStorageBucketName (paid_row s e row)
              (MemStore.served (storage s))) Hmu) as Hrun.
      simpl in Hrun.
      rewrite Hev in Hrun. specialize (Hrun Hget Hupd).
      set (s1 := with_sessionsActive
                   (<[id := paid_row s e row]> (sessionsActive s))
                   (with_storage
                      (MemStore.put sessionStorageBucketName
                         (paid_row s e row) (MemStore.served (storage s)))
                      (tick s))) in *.
      assert (Hmu1 : mu s1 = unlocked) by (destruct s; exact Hmu).
      assert (Hf1 : MemStore.faults (storage s1) = [])
        by (destruct s; exact Hf0).
      assert (Hget1 : sessionsActive s1 !! id = Some (paid_row s e row))
        by (destruct s; apply lookup_insert_eq).
      destruct (IH s1 (paid_row s e row) Hmu1 Hf1 Hget1 Hid Hall)
        as (s' & tr & row' & Hrest & Hmu' & Hf' & Hk' & Hget' & Hid' & Hst
            & Hpay).
      eexists s', _, row'.
      split;
        [apply deliver_cons_ret with (s1 := s1); [exact Hrun | exact Hrest] |].
      split; [exact Hmu' |]. split; [exact Hf' |].
      split;
        [intros Hk; apply Hk'; destruct s; now apply MemStore_keyed_put |].
      split; [exact Hget' |]. split; [exact Hid' |].
      split; [exact Hst |].
      simpl. rewrite last_payment_acc. rewrite Hpay.
      now destruct (last_payment mid None).
Qed.

(** C1, as the code has it: a connection-level created event, then
    statistics and payment events, then a connection-level ended event,
    all for one Session ID and delivered while the store rejects no call,
    leave the store with the record of that Session ID, completed, with
    the counters of the last statistics event and the total of the last
    payment (zero when none was delivered); the entry has left the
    table. *)
Theorem session_ends_completed (s : Storage MemStore.t)
    (id : session_node.ID) (c e : Event) (mid : list Event) :
  mu s = unlocked ->
  MemStore.faults (storage s) = [] ->
  is_create id c = true ->
  connection_level c = true ->
  forallb (fun ev => is_statistics id ev || is_payment id ev) mid = true ->
  is_end id e = true ->
  connection_level e = true ->
  ends_completed_with_last_values Hex FromAddress s id (c :: mid ++ [e]) ∧
  ∃ s' tr r,
    deliver Hex FromAddress (c :: mid ++ [e]) s = Ret tt s' tr ∧
    sessionsActive s' !! id = None ∧
    MemStore.bucket sessionStorageBucketName (storage s') !! id = Some r ∧
    History.Status_ r = History.StatusCompleted ∧
    (History.DataSent r, History.DataReceived r)
      = default (0%N, 0%N) (last_statistics mid None) ∧
    History.Tokens r = default 0%N (last_payment mid None).
Proof.
  intros Hmu Hf Hc Hcl Hmid He Hel.
  destruct c as [c | [cst cinfo] | c | c]; simpl in Hc, Hcl;
    try discriminate.
  destruct cst; try discriminate. apply bool_decide_eq_true in Hc.
  simpl in Hc.
  destruct e as [e | [est einfo] | e | e]; simpl in He, Hel;
    try discriminate.
  destruct est; try discriminate. apply bool_decide_eq_true in He.
  simpl in He. revert Hc Hmid. subst id. intros Hc Hmid.
  set (id := connection.SessionID einfo) in *.
  set (created := {| connection.Status_ := connection.SessionCreatedStatus;
                     connection.SessionInfo_ := cinfo |}).
  set (ended := {| connection.Status_ := connection.SessionEndedStatus;
                   connection.SessionInfo_ := einfo |}).
  (* create *)
  destruct (MemStore_Store_served (storage s) sessionStorageBucketName
              (created_row (consumer_history Hex FromAddress cinfo)) Hf)
    as (db1 & err1 & Hstore & Hf1 & Hk1).
  destruct (connection_created_run Hex FromAddress created s db1 err1
              Hmu eq_refl Hstore) as (row1 & tr1 & Hrun1 & Hrow1).
  simpl in Hrun1. rewrite Hc in Hrun1.
  set (s1 := with_sessionsActive (<[id := row1]> (sessionsActive s))
               (with_storage db1 s)) in *.
  assert (Hmu1 : mu s1 = unlocked) by (destruct s; exact Hmu).
  assert (Hfs1 : MemStore.faults (storage s1) = [])
    by (destruct s; exact Hf1).
  assert (Hget1 : sessionsActive s1 !! id = Some row1)
    by (destruct s; apply lookup_insert_eq).
  assert (Hfresh : History.SessionID row1 = id ∧
                   History.DataSent row1 = 0%N ∧
                   History.DataReceived row1 = 0%N ∧
                   History.Tokens row1 = 0%N)
    by (destruct Hrow1 as [-> | ->]; repeat split; exact Hc).
  destruct Hfresh as (Hid1 & Hsent1 & Hrecv1 & Htok1).
  (* statistics and payments *)
  destruct (deliver_updates id mid s1 row1 Hmu1 Hfs1 Hget1 Hid1 Hmid)
    as (s2 & tr2 & row2 & Hrun2 & Hmu2 & Hf2 & Hk2 & Hget2 & Hid2 & Hst2
        & Hpay2).
  rewrite Hsent1, Hrecv1 in Hst2. rewrite Htok1 in Hpay2.
  (* end *)
  destruct (MemStore_Update_served (storage s2) sessionStorageBucketName
              (ended_row s2 row2) Hf2) as [Hupd Hf3].
  pose proof (handleEndedEvent_ok id s2 row2 _ Hmu2 Hget2 Hupd) as Hrun3.
  set (s3 := with_sessionsActive (delete id (sessionsActive s2))
               (with_storage
                  (MemStore.put sessionStorageBucketName (ended_row s2 row2)
                     (MemStore.served (storage s2)))
                  (tick s2))) in *.
  assert (Hall : ∃ tr, deliver Hex FromAddress
                         (AppTopicConnectionSession created
                            :: mid ++ [AppTopicConnectionSession ended]) s
                       = Ret tt s3 tr).
  { eexists.
    apply deliver_cons_ret with (s1 := s1); [exact Hrun1 |].
    apply deliver_app_ret with (s1 := s2); [exact Hrun2 |].
    apply deliver_cons_ret with (s1 := s3).
    - exact Hrun3.
    - reflexivity. }
  assert (Hdb : MemStore.bucket sessionStorageBucketName (storage s3) !! id
                = Some (ended_row s2 row2)).
  { pose proof (MemStore_bucket_put (MemStore.served (storage s2))
                  sessionStorageBucketName (ended_row s2 row2)) as Hput.
    change (History.SessionID (ended_row s2 row2))
      with (History.SessionID row2) in Hput.
    rewrite Hid2 in Hput. destruct s2; exact Hput. }
  destruct Hall as [tr Hall].
  split.
  - exists s3, tr, (ended_row s2 row2).
    split; [exact Hall |]. split; [exact Hdb |].
    split.
    { intros Hk. apply records_of_keyed; [| exact Hdb].
      assert (Hks2 : MemStore.keyed (storage s2))
        by (apply Hk2; destruct s; apply Hk1; exact Hk).
      destruct s2. now apply MemStore_keyed_put. }
    split; [exact Hid2 |]. split; [reflexivity |]. split.
    + intros sent received Hlast. simpl in Hlast.
      rewrite last_statistics_session_end in Hlast.
      rewrite Hlast in Hst2. simpl in Hst2.
      change (History.DataSent row2 = sent ∧
              History.DataReceived row2 = received).
      split; congruence.
    + intros total Hlast. simpl in Hlast.
      rewrite last_payment_session_end in Hlast.
      rewrite Hlast in Hpay2. exact Hpay2.
  - exists s3, tr, (ended_row s2 row2).
    split; [exact Hall |]. split.
    + destruct s2. apply lookup_delete_eq.
    + split; [exact Hdb |]. split; [reflexivity |]. split.
      * exact Hst2.
      * exact Hpay2.
Qed.
End WholeSession.


(** ** The sessions of the specification, run *)

(** The scenario of the specification: create, statistics, payment, end. *)
Example scenario_full_session :
  Scenario.persisted
    (Scenario.after
       [Scenario.created; Scenario.statistics; Scenario.paid; Scenario.ended]
       (Scenario.consumer_node Scenario.reliable))
  = Some
      {| History.SessionID := "s1";
         History.Direction_ := History.DirectionConsumer;
         History.ConsumerID := {| identity.Address := "0xAA" |};
         History.AccountantID := "0xCC";
         History.ProviderID := {| identity.Address := "0xBB" |};
         History.ServiceType := "wireguard";
         History.ProviderCountry := "LT";
         History.DataSent := 100;
         History.DataReceived := 50;
         History.Tokens := 5;
         History.Status_ := History.StatusCompleted;
         History.Started :=
           {| time.instant := 900; time.location := time.UTCLocation |};
         History.Updated :=
           {| time.instant := 1001; time.location := time.UTCLocation |} |}.
Proof. vm_compute. reflexivity. Qed.

(** A statistics event for a session nobody created. *)
Lemma unknown_session_update_dropped_witness :
  let s := Scenario.consumer_node Scenario.reliable in
  let tr :=
    critical_section Exclusive
      [ATableGet "s1"; ALog Warn "Received a unknown session update"] in
  consume Scenario.Hex Scenario.FromAddress Scenario.statistics s
    = Ret tt s tr ∧
  existsb is_port_action tr = false.
Proof.
  apply (unknown_session_update_dropped Scenario.Hex Scenario.FromAddress
           "s1" Scenario.statistics
           (Scenario.consumer_node Scenario.reliable));
    reflexivity.
Defined.

(** Statistics for the active session s1. *)
Lemma statistics_overwrite_counters_witness :
  ∃ row' tr,
    consumeConnectionStatisticsEvent Scenario.statistics_event Scenario.active
      = Ret tt
          (with_sessionsActive
             (<["s1" := row']> (sessionsActive Scenario.active))
             Scenario.active) tr ∧
    History.DataSent row' = 100%N ∧
    History.DataReceived row' = 50%N ∧
    same_but_counters row' (created_row Scenario.fresh_row) ∧
    existsb is_port_action tr = false.
Proof.
  apply (statistics_overwrite_counters Scenario.statistics_event
           Scenario.active (created_row Scenario.fresh_row));
    vm_compute; reflexivity.
Defined.

(** A payment for the active session s1, taken by the store. *)
Lemma payment_updates_tokens_witness :
  ∃ s' tr,
    consumeConnectionSpendingEvent Scenario.paid_event Scenario.active
      = Ret tt s' tr ∧
    ∃ row',
      sessionsActive s' !! "s1" = Some row' ∧
      History.Tokens row' = 5%N ∧
      History.Updated row' = time.UTC (timeGetter Scenario.active 0) ∧
      same_but_settlement row' (created_row Scenario.fresh_row).
Proof.
  apply (payment_updates_tokens Scenario.paid_event Scenario.active
           (created_row Scenario.fresh_row)
           (MemStore.put sessionStorageBucketName
              (paid_row Scenario.active Scenario.paid_event
                 (created_row Scenario.fresh_row))
              (MemStore.served (storage Scenario.active)))
           None);
    vm_compute; reflexivity.
Defined.

(** The end of session s1 against a store that rejects the write. *)
Lemma failed_end_transition_keeps_entry_witness :
  ∃ s' tr,
    handleEndedEvent "s1" Scenario.active_failing = Ret tt s' tr ∧
    sessionsActive s' = sessionsActive Scenario.active_failing ∧
    mu s' = unlocked ∧
    bind mu_RLock (fun _ => table_get "s1") s'
      = Ret (Some (created_row Scenario.fresh_row))
          (with_mu {| writer := false; readers := 1 |} s')
          [ARLock; ATableGet "s1"].
Proof.
  apply (failed_end_transition_keeps_entry "s1" Scenario.active_failing
           (created_row Scenario.fresh_row)
           (MemStore.served (storage Scenario.active_failing))
           "write rejected");
    vm_compute; reflexivity.
Defined.

(** The lock discipline on the active session s1 and its end. *)
Lemma end_transitions_run_at_once_witness :
  let row := created_row Scenario.fresh_row in
  let first := ended_row Scenario.active row in
  let second := ended_row (tick Scenario.active) row in
  let stored :=
    MemStore.put sessionStorageBucketName second
      (MemStore.served
         (MemStore.put sessionStorageBucketName first
            (MemStore.served (storage Scenario.active)))) in
  interleave (round_robin 7)
    (handleEndedEvent_steps "s1") (handleEndedEvent_steps "s1")
    Scenario.active =
    Some (Stop, Stop,
          with_sessionsActive (delete "s1" (sessionsActive Scenario.active))
            (with_storage stored (tick (tick Scenario.active))),
          [(true, ARLock); (false, ARLock);
           (true, ATableGet "s1"); (false, ATableGet "s1");
           (true, AUpdate sessionStorageBucketName first);
           (false, AUpdate sessionStorageBucketName second);
           (true, ATableDelete "s1"); (false, ATableDelete "s1");
           (true, ALog Debug "Session %v updated with final data");
           (false, ALog Debug "Session %v updated with final data");
           (true, ARUnlock); (false, ARUnlock)]).
Proof.
  intros row first second stored.
  apply (end_transitions_run_at_once "s1" Scenario.active row
           (MemStore.put sessionStorageBucketName first
              (MemStore.served (storage Scenario.active)))
           stored);
    vm_compute; reflexivity.
Defined.

(** [GetAll] while session s1 is in the table and its [Store] was
    rejected: the result is what the store holds, no record at all. *)
Lemma GetAll_reads_the_store_witness :
  GetAll Scenario.unstored =
    Ret ([], None)
      (with_storage (MemStore.served (storage Scenario.unstored))
         Scenario.unstored)
      [AGetAllFrom sessionStorageBucketName] ∧
  ∀ (tbl : gmap session_node.ID History.t) (m : RWMutex),
    GetAll (with_mu m (with_sessionsActive tbl Scenario.unstored)) =
      Ret ([], None)
        (with_storage (MemStore.served (storage Scenario.unstored))
           (with_mu m (with_sessionsActive tbl Scenario.unstored)))
        [AGetAllFrom sessionStorageBucketName].
Proof.
  apply (GetAll_reads_the_store Scenario.unstored
           (MemStore.served (storage Scenario.unstored)) [] None).
  vm_compute; reflexivity.
Defined.

(** The created event of session s1 on a node right after start. *)
Lemma connection_created_stores_fresh_record_witness :
  ∃ s' stored outcome,
    consume Scenario.Hex Scenario.FromAddress Scenario.created
      (Scenario.consumer_node Scenario.reliable) =
      Ret tt s'
        (critical_section Exclusive [ATablePut "s1" Scenario.fresh_row] ++
         critical_section Exclusive
           (ATableGet "s1" :: AStore sessionStorageBucketName stored
              :: outcome)) ∧
    storage s' =
      MemStore.put sessionStorageBucketName
        (History.with_Status History.StatusNew Scenario.fresh_row)
        (MemStore.served Scenario.reliable) ∧
    sessionsActive s' = <[ "s1" := stored ]> ∅ ∧
    outcome = [ATablePut "s1" stored; ALog Debug "Session %v saved"] ∧
    History.Direction_ Scenario.fresh_row = History.DirectionConsumer ∧
    History.DataSent Scenario.fresh_row = 0%N ∧
    History.DataReceived Scenario.fresh_row = 0%N ∧
    History.Tokens Scenario.fresh_row = 0%N ∧
    History.Updated Scenario.fresh_row = time.zero ∧
    stored = History.with_Status History.StatusNew Scenario.fresh_row ∧
    History.Direction_ stored = History.DirectionConsumer ∧
    History.DataSent stored = 0%N ∧
    History.DataReceived stored = 0%N ∧
    History.Tokens stored = 0%N ∧
    History.Updated stored = time.zero.
Proof.
  apply (connection_created_stores_fresh_record
           Scenario.Hex Scenario.FromAddress
           {| connection.Status_ := connection.SessionCreatedStatus;
              connection.SessionInfo_ := Scenario.info |}
           (Scenario.consumer_node Scenario.reliable)
           (MemStore.put sessionStorageBucketName
              (History.with_Status History.StatusNew Scenario.fresh_row)
              (MemStore.served Scenario.reliable))
           None);
    reflexivity.
Defined.

(** The ended event of session s1 delivered twice. *)
Lemma duplicate_end_is_dropped_witness :
  let s2 :=
    with_currentSessions Scenario.nobody
      (Scenario.after [Scenario.ended] Scenario.active) in
  ∃ tr2,
    consume Scenario.Hex Scenario.FromAddress Scenario.ended s2
      = Ret tt s2 tr2 ∧
    existsb is_port_action tr2 = false.
Proof.
  apply (duplicate_end_is_dropped Scenario.Hex Scenario.FromAddress
           "s1" Scenario.ended Scenario.ended Scenario.active
           (Scenario.after [Scenario.ended] Scenario.active)
           (Scenario.trace_of [Scenario.ended] Scenario.active)
           Scenario.nobody).
  - vm_compute; reflexivity.
  - reflexivity.
  - vm_compute; reflexivity.
  - vm_compute. tauto.
  - reflexivity.
  - reflexivity.
Defined.

(** Who writes durably, on session s1. *)
Lemma store_on_create_update_on_payment_witness :
  (∃ s' tr,
     consume Scenario.Hex Scenario.FromAddress Scenario.created
       (Scenario.consumer_node Scenario.reliable) = Ret tt s' tr ∧
     (existsb is_store_action tr = true ->
      ∃ id, is_create id Scenario.created = true)) ∧
  (∃ s' tr,
     consumeConnectionStatisticsEvent Scenario.statistics_event
       Scenario.unstored = Ret tt s' tr ∧
     storage s' = storage Scenario.unstored ∧
     existsb is_port_action tr = false) ∧
  (∃ s' tr,
     consumeConnectionSpendingEvent Scenario.paid_event Scenario.unstored
       = Ret tt s' tr ∧
     In (AUpdate sessionStorageBucketName
           (paid_row Scenario.unstored Scenario.paid_event
              Scenario.fresh_row)) tr).
Proof.
  pose proof (store_on_create_update_on_payment
                (DB := MemStore.t) Scenario.Hex Scenario.FromAddress)
    as (Hstore & Hstats & Hpaid).
  split; [| split].
  - apply Hstore. reflexivity.
  - apply Hstats. vm_compute; reflexivity.
  - apply (Hpaid Scenario.paid_event Scenario.unstored Scenario.fresh_row);
      vm_compute; reflexivity.
Defined.

(** The session of the specification: created, statistics, payment,
    ended, against a reliable store. *)
Lemma session_ends_completed_witness :
  let s := Scenario.consumer_node Scenario.reliable in
  let mid := [Scenario.statistics; Scenario.paid] in
  let evs := Scenario.created :: mid ++ [Scenario.ended] in
  ends_completed_with_last_values Scenario.Hex Scenario.FromAddress
    s "s1" evs ∧
  ∃ s' tr r,
    deliver Scenario.Hex Scenario.FromAddress evs s = Ret tt s' tr ∧
    sessionsActive s' !! "s1" = None ∧
    MemStore.bucket sessionStorageBucketName (storage s') !! "s1" = Some r ∧
    History.Status_ r = History.StatusCompleted ∧
    (History.DataSent r, History.DataReceived r)
      = default (0%N, 0%N) (last_statistics mid None) ∧
    History.Tokens r = default 0%N (last_payment mid None).
Proof.
  apply (session_ends_completed Scenario.Hex Scenario.FromAddress
           (Scenario.consumer_node Scenario.reliable) "s1"
           Scenario.created Scenario.ended
           [Scenario.statistics; Scenario.paid]);
    reflexivity.
Defined.

(** ** Where the specification and the code part *)

(** C1 as stated fails.  With a store that rejects the payment's [Update],
    session s1 ends completed with [Tokens] zero although a total of 5 was
    delivered; on the provider side, with a store that rejects nothing,
    the removed event re-reads the counters from the Session Lookup Port
    and session s1 ends with [DataSent] zero although 100 was delivered. *)
Lemma session_values_can_differ :
  (valid_order "s1" [Scenario.created; Scenario.paid; Scenario.ended] ∧
   ¬ ends_completed_with_last_values Scenario.Hex Scenario.FromAddress
       (Scenario.consumer_node Scenario.rejects_second) "s1"
       [Scenario.created; Scenario.paid; Scenario.ended]) ∧
  (valid_order "s1"
     [Scenario.service_created; Scenario.statistics;
      Scenario.service_removed] ∧
   ¬ ends_completed_with_last_values Scenario.Hex Scenario.FromAddress
       (Scenario.provider_node Scenario.reliable) "s1"
       [Scenario.service_created; Scenario.statistics;
        Scenario.service_removed]).
Proof.
  split; split.
  - exists Scenario.created, [Scenario.paid], Scenario.ended.
    repeat split.
  - intros (s' & tr & r & Hrun & Hdb & _ & _ & _ & _ & Htokens).
    specialize (Htokens 5%N eq_refl).
    assert (Hs' : s' = Scenario.after
                         [Scenario.created; Scenario.paid; Scenario.ended]
                         (Scenario.consumer_node Scenario.rejects_second))
      by (unfold Scenario.after, Scenario.run; now rewrite Hrun).
    subst s'. vm_compute in Hdb. injection Hdb as <-. discriminate Htokens.
  - exists Scenario.service_created, [Scenario.statistics],
      Scenario.service_removed.
    repeat split.
  - intros (s' & tr & r & Hrun & Hdb & _ & _ & _ & Hcounters & _).
    destruct (Hcounters 100%N 50%N eq_refl) as [Hsent _].
    assert (Hs' : s' = Scenario.after
                         [Scenario.service_created; Scenario.statistics;
                          Scenario.service_removed]
                         (Scenario.provider_node Scenario.reliable))
      by (unfold Scenario.after, Scenario.run; now rewrite Hrun).
    subst s'. vm_compute in Hdb. injection Hdb as <-. discriminate Hsent.
Qed.

(** C2 as stated fails.  Session s1 is in the table, its [Store] was
    rejected and the store holds no record of it; a payment event then
    calls [Update], and the record is in the store afterwards. *)
Lemma payment_writes_before_store :
  Scenario.run [Scenario.created]
      (Scenario.consumer_node Scenario.rejects_first)
    = Ret tt Scenario.unstored
        (Scenario.trace_of [Scenario.created]
           (Scenario.consumer_node Scenario.rejects_first)) ∧
  sessionsActive Scenario.unstored !! "s1" = Some Scenario.fresh_row ∧
  Scenario.persisted Scenario.unstored = None ∧
  Scenario.run [Scenario.paid] Scenario.unstored
    = Ret tt (Scenario.after [Scenario.paid] Scenario.unstored)
        (Scenario.trace_of [Scenario.paid] Scenario.unstored) ∧
  existsb is_update_action
    (Scenario.trace_of [Scenario.paid] Scenario.unstored) = true ∧
  Scenario.persisted (Scenario.after [Scenario.paid] Scenario.unstored)
    = Some (paid_row Scenario.unstored Scenario.paid_event
              Scenario.fresh_row).
Proof. repeat split; vm_compute; reflexivity. Qed.

(** C4 as stated fails.  On the provider side the removed event of
    session s1 succeeds, the entry leaves the table, and the same event
    delivered again, the Session Lookup Port still finding the session,
    puts the record back and calls [Update] a second time. *)
Lemma duplicate_removed_updates_again :
  let s0 := Scenario.provider_node Scenario.reliable in
  let s1 := Scenario.after [Scenario.service_removed] s0 in
  Scenario.run [Scenario.service_removed] s0
    = Ret tt s1 (Scenario.trace_of [Scenario.service_removed] s0) ∧
  existsb is_update_action
    (Scenario.trace_of [Scenario.service_removed] s0) = true ∧
  sessionsActive s1 !! "s1" = None ∧
  Scenario.run [Scenario.service_removed] s1
    = Ret tt (Scenario.after [Scenario.service_removed] s1)
        (Scenario.trace_of [Scenario.service_removed] s1) ∧
  existsb is_update_action
    (Scenario.trace_of [Scenario.service_removed] s1) = true.
Proof. repeat split; vm_compute; reflexivity. Qed.

(** The other scenario of the specification: a statistics event for a
    session nobody created, then [GetAll], which returns no record. *)
Example scenario_unknown_statistics :
  ∃ s' tr,
    GetAll
      (Scenario.after [Scenario.statistics]
         (Scenario.consumer_node Scenario.reliable))
    = Ret ([], None) s' tr.
Proof. do 2 eexists. vm_compute. reflexivity. Qed.

(** ** The trace checks tell runs apart *)

(** A table access outside any critical section is not guarded. *)
Example guarded_rejects_bare_access :
  guarded None [ATableGet "s1"; ALog Warn "Received a unknown session update"]
    = false.
Proof. reflexivity. Qed.

(** A lookup in one critical section and the deletion in a later one is
    not an atomic read-modify-write, although every access is guarded. *)
Example rmw_atomic_rejects_split_sections :
  let tr :=
    (critical_section Shared [ATableGet "s1"] ++
     critical_section Exclusive [ATableDelete "s1"])%list in
  guarded None tr = true ∧ rmw_atomic BeforeLookup tr = false.
Proof. split; reflexivity. Qed.

(** The deletion of an entry with the mutex in read mode is not guarded;
    this is the trace of the end transition on a session of the table. *)
Example guarded_rejects_the_end_transition :
  ∃ s' tr,
    handleEndedEvent "s1" Scenario.active = Ret tt s' tr ∧
    In (ATableDelete "s1") tr ∧
    guarded None tr = false.
Proof. do 2 eexists. split; [reflexivity |]. split; vm_compute; auto 10. Qed.

(** Two create transitions for one session, the goroutines taking turns:
    the second waits for the mutex until the first has given it back, and
    finds the record stored. *)
Example create_transitions_take_turns :
  ∃ s' tr,
    interleave (round_robin 12)
      (handleCreatedEvent_steps "s1") (handleCreatedEvent_steps "s1")
      Scenario.unstored = Some (Stop, Stop, s', tr) ∧
    map fst tr =
      [true; true; true; true; true; true;
       false; false; false; false; false] ∧
    actions_of false tr =
      critical_section Exclusive
        [ATableGet "s1";
         AStore sessionStorageBucketName (created_row Scenario.fresh_row);
         ALog Error "Session %v insert failed"].
Proof. do 2 eexists. split; [reflexivity |]. split; reflexivity. Qed.


(** * Further properties of the reconciler *)

Section Reconciliation.
Context {DB : Type} `{!Storer DB}.
Variable Hex : common.Address -> string.
Variable FromAddress : string -> identity.Identity.

Lemma deliver_step (ev : Event) (evs : list Event)
    (s s1 s2 : Storage DB) (t1 t2 : list Action) :
  consume Hex FromAddress ev s = Ret tt s1 t1 ->
  deliver Hex FromAddress evs s1 = Ret tt s2 t2 ->
  deliver Hex FromAddress (ev :: evs) s = Ret tt s2 (t1 ++ t2).
Proof.
  intros H1 H2. simpl. unfold bind. now rewrite H1, H2.
Qed.

Lemma port_calls_app (t1 t2 : list Action) :
  port_calls (t1 ++ t2) = (port_calls t1 ++ port_calls t2)%list.
Proof. apply List.filter_app. Qed.

(** An event that never inserts, delivered while the table is empty,
    leaves the state as it is and calls nothing on the port. *)
Lemma dropped_on_empty_table (ev : Event) (s : Storage DB) :
  mu s = unlocked ->
  sessionsActive s = ∅ ->
  is_update_or_connection_end ev = true ->
  ∃ tr, consume Hex FromAddress ev s = Ret tt s tr ∧ port_calls tr = [].
Proof.
  intros Hmu Hempty Hev.
  assert (Hnone : ∀ id : session_node.ID, sessionsActive s !! id = None)
    by (intros id; rewrite Hempty; apply lookup_empty).
  destruct ev as [e | [st info] | e | e]; simpl in Hev; try discriminate.
  - destruct st; try discriminate. eexists. split.
    + apply handleEndedEvent_miss; [exact Hmu | apply Hnone].
    + reflexivity.
  - eexists. split.
    + apply statistics_miss; [exact Hmu | apply Hnone].
    + reflexivity.
  - eexists. split.
    + apply spending_miss; [exact Hmu | apply Hnone].
    + reflexivity.
Qed.

(** X1: on a repository as [NewSessionStorage] builds it, any sequence of
    statistics, payment and connection-level ended events, for whatever
    sessions, returns the repository unchanged and makes no call to the
    Persistence Port. *)
Theorem new_storage_drops_updates (st : DB) (time_Now : nat -> time.Time)
    (cs : session_node.ID -> option session_node.Session)
    (evs : list Event) :
  forallb is_update_or_connection_end evs = true ->
  let s := NewSessionStorage st time_Now cs in
  ∃ tr,
    deliver Hex FromAddress evs s = Ret tt s tr ∧
    port_calls tr = [].
Proof.
  intros Hall s. induction evs as [| ev evs IH].
  - exists []. split; reflexivity.
  - simpl in Hall. apply andb_true_iff in Hall as [Hev Hall].
    destruct (dropped_on_empty_table ev s eq_refl eq_refl Hev)
      as (t1 & Hrun1 & Hp1).
    destruct (IH Hall) as (t2 & Hrun2 & Hp2).
    exists (t1 ++ t2)%list. split.
    + now apply deliver_step with (s1 := s).
    + rewrite port_calls_app, Hp1, Hp2. reflexivity.
Qed.

(** X2: an event leaves the table entries of every other Session ID as
    they were. *)
Theorem other_sessions_untouched (ev : Event) (s : Storage DB)
    (other : session_node.ID) :
  mu s = unlocked ->
  other ≠ event_session ev ->
  ∃ s' tr,
    consume Hex FromAddress ev s = Ret tt s' tr ∧
    sessionsActive s' !! other = sessionsActive s !! other.
Proof.
  intros Hmu Hne. open_state s.
  destruct ev as [[st sid] | [st info] | e | e]; simpl in Hne;
    step_through; split_run; do 2 eexists;
    (split; [reflexivity |]); simpl;
    repeat first
      [ rewrite lookup_insert_ne by congruence
      | rewrite lookup_delete_ne by congruence ];
    reflexivity.
Qed.

(** X3: a service-level event for a session the Session Lookup Port does
    not find is dropped before the mutex is touched: whatever the status
    of the event and the state of the mutex, the run returns the state it
    started from with the warning as its only action. *)
Theorem unknown_service_session_dropped (e : session_event.AppEventSession)
    (s : Storage DB) :
  currentSessions s (session_event.ID e) = None ->
  consumeServiceSessionEvent Hex FromAddress e s =
    Ret tt s [ALog Warn "Received a unknown session update"].
Proof.
  intros Hmiss. destruct s as [db tg cs m tbl]. simpl in Hmiss.
  step_through. rewrite Hmiss. reflexivity.
Qed.

(** X4: a service-level event that is neither created nor removed, for a
    session the lookup port finds, overwrites the table entry with the
    provider record built from the lookup and does nothing else: the
    store is not called and no transition runs. *)
Theorem other_service_status_only_caches (e : session_event.AppEventSession)
    (s : Storage DB) (sess : session_node.Session) :
  let id := session_event.ID e in
  mu s = unlocked ->
  currentSessions s id = Some sess ->
  session_event.Status_ e = session_event.AcknowledgedStatus ->
  consumeServiceSessionEvent Hex FromAddress e s =
    Ret tt
      (with_sessionsActive
         (<[id := provider_history Hex FromAddress id sess]>
            (sessionsActive s)) s)
      (critical_section Exclusive
         [ATablePut id (provider_history Hex FromAddress id sess)]).
Proof.
  intros id Hmu Hfind Hst. subst id. open_state s.
  destruct e as [st sid]. simpl in *. subst st.
  step_through. rewrite Hfind. reflexivity.
Qed.

(** X5: the create transition for a session in the table hands [Store]
    the entry with the status New.  When [Store] succeeds that record
    becomes the entry; when it fails the table is left as it was, the
    entry still there with the status it had. *)
Theorem create_transition_outcome (id : session_node.ID) (s : Storage DB)
    (row : History.t) (db' : DB) (err : error) :
  mu s = unlocked ->
  sessionsActive s !! id = Some row ->
  Store (storage s) sessionStorageBucketName (created_row row)
    = (db', err) ->
  ∃ s' tr,
    handleCreatedEvent id s = Ret tt s' tr ∧
    port_calls tr = [AStore sessionStorageBucketName (created_row row)] ∧
    storage s' = db' ∧
    History.Status_ (created_row row) = History.StatusNew ∧
    History.Updated (created_row row) = History.Updated row ∧
    same_but_lifecycle (created_row row) row ∧
    match err with
    | None => sessionsActive s' = <[id := created_row row]> (sessionsActive s)
    | Some _ => sessionsActive s' = sessionsActive s
    end.
Proof.
  intros Hmu Hget Hstore. destruct err as [msg |]; do 2 eexists.
  - split; [now apply (handleCreatedEvent_fail id s row db' msg) |].
    destruct s. repeat split.
  - split; [now apply (handleCreatedEvent_ok id s row db') |].
    destruct s. repeat split.
Qed.

(** X6: the create transition for a session absent from the table calls
    nothing on the port and returns the state it started from. *)
Theorem create_transition_miss (id : session_node.ID) (s : Storage DB) :
  mu s = unlocked ->
  sessionsActive s !! id = None ->
  ∃ tr,
    handleCreatedEvent id s = Ret tt s tr ∧
    port_calls tr = [].
Proof.
  intros Hmu Hget. eexists. split.
  - now apply handleCreatedEvent_miss.
  - reflexivity.
Qed.

(** X7: the end transition for a session in the table hands [Update] the
    entry with the status Completed and [Updated] the clock reading in
    UTC, every other field as in the entry; when [Update] succeeds the
    entry is deleted from the table. *)
Theorem end_transition_success (id : session_node.ID) (s : Storage DB)
    (row : History.t) (db' : DB) :
  mu s = unlocked ->
  sessionsActive s !! id = Some row ->
  Update (storage s) sessionStorageBucketName (ended_row s row)
    = (db', None) ->
  ∃ s' tr,
    handleEndedEvent id s = Ret tt s' tr ∧
    port_calls tr = [AUpdate sessionStorageBucketName (ended_row s row)] ∧
    History.Status_ (ended_row s row) = History.StatusCompleted ∧
    History.Updated (ended_row s row) = time.UTC (timeGetter s 0) ∧
    same_but_lifecycle (ended_row s row) row ∧
    sessionsActive s' = delete id (sessionsActive s) ∧
    sessionsActive s' !! id = None ∧
    storage s' = db'.
Proof.
  intros Hmu Hget Hupd. do 2 eexists.
  split; [now apply (handleEndedEvent_ok id s row db') |].
  destruct s. simpl. repeat split. apply lookup_delete_eq.
Qed.

(** X8: a service-level created event for a session the lookup port
    finds hands [Store] the provider record built from the lookup, with
    the status New, whatever the table held for that Session ID before:
    the counters and the earnings are the session manager's.  The store
    of the repository after the event is the one this call of [Store]
    returned, and the entry is the stored record when [Store] took it
    and the record as built when it did not. *)
Theorem service_created_stores_lookup (e : session_event.AppEventSession)
    (s : Storage DB) (sess : session_node.Session) (db' : DB)
    (err : error) :
  let id := session_event.ID e in
  let stored := created_row (provider_history Hex FromAddress id sess) in
  mu s = unlocked ->
  currentSessions s id = Some sess ->
  session_event.Status_ e = session_event.CreatedStatus ->
  Store (storage s) sessionStorageBucketName stored = (db', err) ->
  ∃ s' tr,
    consumeServiceSessionEvent Hex FromAddress e s = Ret tt s' tr ∧
    port_calls tr = [AStore sessionStorageBucketName stored] ∧
    storage s' = db' ∧
    sessionsActive s' =
      <[id := match err with
              | None => stored
              | Some _ => provider_history Hex FromAddress id sess
              end]> (sessionsActive s) ∧
    History.Direction_ stored = History.DirectionProvider ∧
    History.Status_ stored = History.StatusNew ∧
    History.DataSent stored
      = session_node.Up (session_node.DataTransferred_ sess) ∧
    History.DataReceived stored
      = session_node.Down (session_node.DataTransferred_ sess) ∧
    History.Tokens stored = session_node.TokensEarned sess ∧
    History.Started stored = time.UTC (session_node.CreatedAt sess) ∧
    is_Some (sessionsActive s' !! id).
Proof.
  intros id stored Hmu Hfind Hst Hstore. subst stored id. open_state s.
  destruct e as [st sid]. simpl in *. subst st.
  step_through. rewrite Hfind. simpl. rewrite lookup_insert_eq. simpl.
  unfold created_row, provider_history in Hstore. simpl in Hstore.
  rewrite Hstore.
  destruct err as [msg |]; simpl; do 2 eexists; (split; [reflexivity |]);
    (split; [reflexivity |]); (split; [reflexivity |]);
    (split; [rewrite ?insert_insert_eq; reflexivity |]);
    do 6 (split; [reflexivity |]); simpl;
    rewrite lookup_insert_eq; eexists; reflexivity.
Qed.

(** X9: a service-level removed event for a session the lookup port
    finds hands [Update] the provider record built from the lookup,
    completed, whatever the table held before: statistics written into
    the entry earlier are overwritten by the session manager's counters.
    The entry is gone when [Update] succeeds and is the provider record
    when it fails. *)
Theorem service_removed_updates_lookup (e : session_event.AppEventSession)
    (s : Storage DB) (sess : session_node.Session) (db' : DB)
    (err : error) :
  let id := session_event.ID e in
  let final := ended_row s (provider_history Hex FromAddress id sess) in
  mu s = unlocked ->
  currentSessions s id = Some sess ->
  session_event.Status_ e = session_event.RemovedStatus ->
  Update (storage s) sessionStorageBucketName final = (db', err) ->
  ∃ s' tr,
    consumeServiceSessionEvent Hex FromAddress e s = Ret tt s' tr ∧
    port_calls tr = [AUpdate sessionStorageBucketName final] ∧
    History.Status_ final = History.StatusCompleted ∧
    History.DataSent final
      = session_node.Up (session_node.DataTransferred_ sess) ∧
    History.DataReceived final
      = session_node.Down (session_node.DataTransferred_ sess) ∧
    History.Tokens final = session_node.TokensEarned sess ∧
    sessionsActive s' !! id =
      match err with
      | None => None
      | Some _ => Some (provider_history Hex FromAddress id sess)
      end.
Proof.
  intros id final Hmu Hfind Hst Hupd. subst final id. open_state s.
  destruct e as [st sid]. simpl in *. subst st.
  step_through. rewrite Hfind. simpl. rewrite lookup_insert_eq. simpl.
  unfold ended_row, provider_history in Hupd. simpl in Hupd. rewrite Hupd.
  destruct err as [msg |]; simpl; do 2 eexists;
    (split; [reflexivity |]); repeat split.
  - apply lookup_insert_eq.
  - apply lookup_delete_eq.
Qed.

(** X10: an event makes at most one call to the Persistence Port: no
    write is attempted twice and no event both stores and updates. *)
Theorem at_most_one_port_call (ev : Event) (s : Storage DB) :
  mu s = unlocked ->
  ∃ s' tr,
    consume Hex FromAddress ev s = Ret tt s' tr ∧
    (length (port_calls tr) <= 1)%nat.
Proof.
  intros Hmu. open_state s.
  destruct ev as [e | e | e | e]; step_through; split_run;
    do 2 eexists; (split; [reflexivity |]); simpl; lia.
Qed.

(** X11: statistics and payment events neither add nor remove table
    entries: the set of active Session IDs is the same after the event,
    whether the session was known or not and whether [Update] succeeded
    or not. *)
Theorem updates_keep_the_active_sessions (ev : Event) (s : Storage DB) :
  mu s = unlocked ->
  is_statistics (event_session ev) ev || is_payment (event_session ev) ev
    = true ->
  ∃ s' tr,
    consume Hex FromAddress ev s = Ret tt s' tr ∧
    dom (sessionsActive s') = dom (sessionsActive s).
Proof.
  intros Hmu Hev. open_state s.
  destruct ev as [e | e | e | e]; simpl in Hev; try discriminate;
    clear Hev; step_through; split_run; do 2 eexists;
    (split; [reflexivity |]); simpl; try reflexivity;
    apply dom_insert_lookup_L; eexists; eassumption.
Qed.

(** X12: an entry is deleted from the table only by an end event, and
    then only the entry of the event's own Session ID. *)
Theorem only_end_events_delete (ev : Event) (s : Storage DB) :
  mu s = unlocked ->
  ∃ s' tr,
    consume Hex FromAddress ev s = Ret tt s' tr ∧
    ∀ id,
      In (ATableDelete id) tr ->
      id = event_session ev ∧ is_end id ev = true.
Proof.
  intros Hmu. open_state s.
  destruct ev as [[st sid] | [st info] | e | e]; try destruct st;
    step_through; split_run; do 2 eexists;
    (split; [reflexivity |]); simpl; intros id Hin;
    repeat (destruct Hin as [Hin | Hin]; try discriminate);
    try contradiction;
    injection Hin as <-; (split; [reflexivity |]);
    apply bool_decide_eq_true; reflexivity.
Qed.
End Reconciliation.

(** ** Subscription *)

Section SubscriptionProperties.
Context {DB : Type} `{!Storer DB}.
Variable Hex : common.Address -> string.
Variable FromAddress : string -> identity.Identity.
Context {B : Type} `{!Subscriber (DB := DB) B}.

(** X13: [Subscribe] registers the consumers in the order service
    session, connection session, connection statistics, invoice paid,
    each on the bus the registration before it left.  It returns nil only
    once the bus has accepted all four, and the bus it leaves is the one
    after the fourth.  When the bus refuses a registration, the
    registrations before it were accepted, that refusal's error is
    returned, the bus is left as the refused call left it and no later
    registration is attempted. *)
Theorem Subscribe_stops_at_first_refusal (bus bus' : B) (err : error) :
  Subscribe Hex FromAddress bus = (bus', err) ->
  match err with
  | None =>
      succeed register bus (subscriptions Hex FromAddress) = Some bus'
  | Some e =>
      ∃ (n : nat) (b : B) (r : eventbus.Topic * Handler),
        subscriptions Hex FromAddress !! n = Some r ∧
        succeed register bus (take n (subscriptions Hex FromAddress))
          = Some b ∧
        register b r = (bus', Some e)
  end.
Proof.
  unfold Subscribe, subscriptions.
  destruct (bus_Subscribe bus eventbus.AppTopicSession _)
    as [b1 [e1 |]] eqn:H1.
  { intros Heq. injection Heq as <- <-.
    exists 0%nat, bus. eexists. split; [reflexivity |].
    split; [reflexivity | exact H1]. }
  destruct (bus_Subscribe b1 eventbus.AppTopicConnectionSession _)
    as [b2 [e2 |]] eqn:H2.
  { intros Heq. injection Heq as <- <-.
    exists 1%nat, b1. eexists. split; [reflexivity |].
    split; [| exact H2].
    cbn [take succeed]. unfold register. cbn [fst snd]. now rewrite H1. }
  destruct (bus_Subscribe b2 eventbus.AppTopicConnectionStatistics _)
    as [b3 [e3 |]] eqn:H3.
  { intros Heq. injection Heq as <- <-.
    exists 2%nat, b2. eexists. split; [reflexivity |].
    split; [| exact H3].
    cbn [take succeed]. unfold register. cbn [fst snd].
    now rewrite H1, H2. }
  intros H4. destruct err as [e4 |].
  - exists 3%nat, b3. eexists. split; [reflexivity |].
    split; [| exact H4].
    cbn [take succeed]. unfold register. cbn [fst snd].
    now rewrite H1, H2, H3.
  - cbn [succeed]. unfold register. cbn [fst snd].
    now rewrite H1, H2, H3, H4.
Qed.
End SubscriptionProperties.

(** ** The further properties on session s1 *)

Lemma new_storage_drops_updates_witness :
  let s :=
    NewSessionStorage Scenario.reliable Scenario.clock Scenario.nobody in
  ∃ tr,
    deliver Scenario.Hex Scenario.FromAddress
      [Scenario.statistics; Scenario.paid; Scenario.ended] s = Ret tt s tr ∧
    port_calls tr = [].
Proof.
  apply (new_storage_drops_updates Scenario.Hex Scenario.FromAddress
           Scenario.reliable Scenario.clock Scenario.nobody
           [Scenario.statistics; Scenario.paid; Scenario.ended]).
  reflexivity.
Defined.

Lemma other_sessions_untouched_witness :
  ∃ s' tr,
    consume Scenario.Hex Scenario.FromAddress Scenario.ended Scenario.active
      = Ret tt s' tr ∧
    sessionsActive s' !! "s2" = sessionsActive Scenario.active !! "s2".
Proof.
  apply (other_sessions_untouched Scenario.Hex Scenario.FromAddress
           Scenario.ended Scenario.active "s2").
  - vm_compute; reflexivity.
  - simpl. discriminate.
Defined.

Lemma unknown_service_session_dropped_witness :
  consumeServiceSessionEvent Scenario.Hex Scenario.FromAddress
    Scenario.service_removed_event Scenario.active
  = Ret tt Scenario.active [ALog Warn "Received a unknown session update"].
Proof.
  apply (unknown_service_session_dropped Scenario.Hex Scenario.FromAddress
           Scenario.service_removed_event Scenario.active).
  vm_compute; reflexivity.
Defined.

Lemma other_service_status_only_caches_witness :
  let s := Scenario.provider_node Scenario.reliable in
  consumeServiceSessionEvent Scenario.Hex Scenario.FromAddress
    Scenario.service_acknowledged_event s =
    Ret tt
      (with_sessionsActive
         (<["s1" := Scenario.provider_row]> (sessionsActive s)) s)
      (critical_section Exclusive [ATablePut "s1" Scenario.provider_row]).
Proof.
  apply (other_service_status_only_caches
           Scenario.Hex Scenario.FromAddress
           Scenario.service_acknowledged_event
           (Scenario.provider_node Scenario.reliable) Scenario.session);
    reflexivity.
Defined.

Lemma create_transition_outcome_witness :
  let stored := created_row Scenario.fresh_row in
  ∃ s' tr,
    handleCreatedEvent "s1" Scenario.unstored = Ret tt s' tr ∧
    port_calls tr = [AStore sessionStorageBucketName stored] ∧
    storage s'
      = MemStore.put sessionStorageBucketName stored
          (MemStore.served (storage Scenario.unstored)) ∧
    History.Status_ stored = History.StatusNew ∧
    History.Updated stored = History.Updated Scenario.fresh_row ∧
    same_but_lifecycle stored Scenario.fresh_row ∧
    sessionsActive s' = <["s1" := stored]> (sessionsActive Scenario.unstored).
Proof.
  apply (create_transition_outcome "s1" Scenario.unstored
           Scenario.fresh_row
           (MemStore.put sessionStorageBucketName
              (created_row Scenario.fresh_row)
              (MemStore.served (storage Scenario.unstored)))
           None);
    vm_compute; reflexivity.
Defined.

Lemma create_transition_miss_witness :
  let s := Scenario.consumer_node Scenario.reliable in
  ∃ tr, handleCreatedEvent "s1" s = Ret tt s tr ∧ port_calls tr = [].
Proof.
  apply (create_transition_miss "s1"
           (Scenario.consumer_node Scenario.reliable));
    reflexivity.
Defined.

Lemma end_transition_success_witness :
  let row := created_row Scenario.fresh_row in
  let final := ended_row Scenario.active row in
  ∃ s' tr,
    handleEndedEvent "s1" Scenario.active = Ret tt s' tr ∧
    port_calls tr = [AUpdate sessionStorageBucketName final] ∧
    History.Status_ final = History.StatusCompleted ∧
    History.Updated final = time.UTC (timeGetter Scenario.active 0) ∧
    same_but_lifecycle final row ∧
    sessionsActive s' = delete "s1" (sessionsActive Scenario.active) ∧
    sessionsActive s' !! "s1" = None ∧
    storage s'
      = MemStore.put sessionStorageBucketName final
          (MemStore.served (storage Scenario.active)).
Proof.
  apply (end_transition_success "s1" Scenario.active
           (created_row Scenario.fresh_row)
           (MemStore.put sessionStorageBucketName
              (ended_row Scenario.active (created_row Scenario.fresh_row))
              (MemStore.served (storage Scenario.active))));
    vm_compute; reflexivity.
Defined.

Lemma service_created_stores_lookup_witness :
  let stored := created_row Scenario.provider_row in
  ∃ s' tr,
    consumeServiceSessionEvent Scenario.Hex Scenario.FromAddress
      Scenario.service_created_event
      (Scenario.provider_node Scenario.reliable) = Ret tt s' tr ∧
    port_calls tr = [AStore sessionStorageBucketName stored] ∧
    storage s' =
      MemStore.put sessionStorageBucketName stored
        (MemStore.served Scenario.reliable) ∧
    sessionsActive s' = <[ "s1" := stored ]> ∅ ∧
    History.Direction_ stored = History.DirectionProvider ∧
    History.Status_ stored = History.StatusNew ∧
    History.DataSent stored
      = session_node.Up (session_node.DataTransferred_ Scenario.session) ∧
    History.DataReceived stored
      = session_node.Down (session_node.DataTransferred_ Scenario.session) ∧
    History.Tokens stored = session_node.TokensEarned Scenario.session ∧
    History.Started stored
      = time.UTC (session_node.CreatedAt Scenario.session) ∧
    is_Some (sessionsActive s' !! "s1").
Proof.
  apply (service_created_stores_lookup Scenario.Hex Scenario.FromAddress
           Scenario.service_created_event
           (Scenario.provider_node Scenario.reliable) Scenario.session
           (MemStore.put sessionStorageBucketName
              (created_row Scenario.provider_row)
              (MemStore.served Scenario.reliable))
           None);
    reflexivity.
Defined.

Lemma service_removed_updates_lookup_witness :
  let s := Scenario.provider_node Scenario.reliable in
  let final := ended_row s Scenario.provider_row in
  ∃ s' tr,
    consumeServiceSessionEvent Scenario.Hex Scenario.FromAddress
      Scenario.service_removed_event s = Ret tt s' tr ∧
    port_calls tr = [AUpdate sessionStorageBucketName final] ∧
    History.Status_ final = History.StatusCompleted ∧
    History.DataSent final
      = session_node.Up (session_node.DataTransferred_ Scenario.session) ∧
    History.DataReceived final
      = session_node.Down (session_node.DataTransferred_ Scenario.session) ∧
    History.Tokens final = session_node.TokensEarned Scenario.session ∧
    sessionsActive s' !! "s1" = None.
Proof.
  apply (service_removed_updates_lookup Scenario.Hex Scenario.FromAddress
           Scenario.service_removed_event
           (Scenario.provider_node Scenario.reliable) Scenario.session
           (MemStore.put sessionStorageBucketName
              (ended_row (Scenario.provider_node Scenario.reliable)
                 Scenario.provider_row)
              (MemStore.served Scenario.reliable))
           None);
    reflexivity.
Defined.

Lemma at_most_one_port_call_witness :
  ∃ s' tr,
    consume Scenario.Hex Scenario.FromAddress Scenario.paid Scenario.active
      = Ret tt s' tr ∧
    (length (port_calls tr) <= 1)%nat.
Proof.
  apply (at_most_one_port_call Scenario.Hex Scenario.FromAddress
           Scenario.paid Scenario.active).
  vm_compute; reflexivity.
Defined.

Lemma updates_keep_the_active_sessions_witness :
  ∃ s' tr,
    consume Scenario.Hex Scenario.FromAddress Scenario.statistics
      Scenario.active = Ret tt s' tr ∧
    dom (sessionsActive s') = dom (sessionsActive Scenario.active).
Proof.
  apply (updates_keep_the_active_sessions
           Scenario.Hex Scenario.FromAddress
           Scenario.statistics Scenario.active).
  - vm_compute; reflexivity.
  - reflexivity.
Defined.

Lemma only_end_events_delete_witness :
  ∃ s' tr,
    consume Scenario.Hex Scenario.FromAddress Scenario.ended Scenario.active
      = Ret tt s' tr ∧
    ∀ id,
      In (ATableDelete id) tr ->
      id = event_session Scenario.ended ∧ is_end id Scenario.ended = true.
Proof.
  apply (only_end_events_delete Scenario.Hex Scenario.FromAddress
           Scenario.ended Scenario.active).
  vm_compute; reflexivity.
Defined.

Lemma Subscribe_stops_at_first_refusal_witness :
  ∃ (n : nat) (b : MemBus.t)
    (r : eventbus.Topic * Handler (DB := MemStore.t)),
    subscriptions Scenario.Hex Scenario.FromAddress !! n = Some r ∧
    succeed register
      {| MemBus.registered := []; MemBus.refusals := [false; true] |}
      (take n (subscriptions Scenario.Hex Scenario.FromAddress)) = Some b ∧
    register b r =
      ({| MemBus.registered := [eventbus.AppTopicSession];
          MemBus.refusals := [] |}, Some "subscription refused").
Proof.
  apply (Subscribe_stops_at_first_refusal Scenario.Hex Scenario.FromAddress
           {| MemBus.registered := []; MemBus.refusals := [false; true] |}
           {| MemBus.registered := [eventbus.AppTopicSession];
              MemBus.refusals := [] |}
           (Some "subscription refused")).
  reflexivity.
Defined.

(** [Subscribe] on a bus that accepts every registration: the four topics,
    in source order. *)
Example Subscribe_registers_four_topics :
  Subscribe Scenario.Hex Scenario.FromAddress
    {| MemBus.registered := []; MemBus.refusals := [] |} =
    ({| MemBus.registered :=
          [eventbus.AppTopicSession; eventbus.AppTopicConnectionSession;
           eventbus.AppTopicConnectionStatistics;
           eventbus.AppTopicInvoicePaid];
        MemBus.refusals := [] |}, None).
Proof. reflexivity. Qed.


(** * Properties of the release *)

(** ** Strings *)

Lemma string_app_cons (c : Ascii.ascii) (s t : string) :
  String c s ++ t = String c (s ++ t).
Proof. reflexivity. Qed.

Lemma string_app_nil_l (t : string) : "" ++ t = t.
Proof. reflexivity. Qed.

Ltac string_app := rewrite ?string_app_cons, ?string_app_nil_l.

Lemma string_app_nil_r (s : string) : s ++ "" = s.
Proof.
  induction s as [| c s IH]; string_app; [reflexivity | now rewrite IH].
Qed.

Lemma string_app_assoc (a b c : string) : (a ++ b) ++ c = a ++ (b ++ c).
Proof.
  induction a as [| x a IH]; string_app; [reflexivity | now rewrite IH].
Qed.

Lemma string_length_app (a b : string) :
  String.length (a ++ b) = (String.length a + String.length b)%nat.
Proof.
  induction a as [| x a IH]; string_app; simpl;
    [reflexivity | now rewrite IH].
Qed.

Lemma drop_app_length (a b : string) (k : nat) :
  strings.drop (String.length a + k) (a ++ b) = strings.drop k b.
Proof.
  induction a as [| x a IH]; string_app; simpl; [reflexivity | exact IH].
Qed.

Lemma take_drop (n : nat) (s : string) :
  strings.take n s ++ strings.drop n s = s.
Proof.
  revert s. induction n as [| n IH]; intros [| c s]; simpl; string_app;
    try reflexivity. now rewrite IH.
Qed.

(** [HasSuffix] says what its name says. *)
Lemma HasSuffix_spec (s suffix : string) :
  strings.HasSuffix s suffix = true <-> ∃ p, s = p ++ suffix.
Proof.
  unfold strings.HasSuffix. split.
  - intros H. apply andb_true_iff in H as [_ Heq].
    apply String.eqb_eq in Heq.
    exists (strings.take (String.length s - String.length suffix) s).
    transitivity
      (strings.take (String.length s - String.length suffix) s
       ++ strings.drop (String.length s - String.length suffix) s).
    + symmetry. apply take_drop.
    + f_equal. exact Heq.
  - intros [p ->]. rewrite string_length_app. apply andb_true_iff. split.
    + apply Nat.leb_le. lia.
    + replace (String.length p + String.length suffix
               - String.length suffix)%nat
        with (String.length p + 0)%nat by lia.
      rewrite drop_app_length. simpl. apply String.eqb_refl.
Qed.

Lemma prefix_nil (s : string) : String.prefix "" s = true.
Proof. now destruct s. Qed.

Lemma prefix_length (old s : string) :
  String.prefix old s = true -> (String.length old <= String.length s)%nat.
Proof.
  revert s. induction old as [| a old IH]; intros s H; simpl; [lia |].
  destruct s as [| b s]; simpl in H; [discriminate |].
  destruct (Ascii.ascii_dec a b); [| discriminate].
  apply IH in H. simpl. lia.
Qed.

(** ** Replacing every occurrence *)

Section ReplaceAtTheEnd.
Variables old new : string.

(** No occurrence of [old] in [s ++ old] starts inside [s] and runs over
    its end: true of an [old] whose first byte does not come back in
    it. *)
Hypothesis no_overlap :
  ∀ s : string, s ≠ "" -> String.prefix old (s ++ old) = String.prefix old s.
Hypothesis old_itself :
  strings.replace_from 0 None old new old = new.

Lemma replace_from_app_old (s : string) :
  ∀ k : nat,
    (k <= String.length s)%nat ->
    strings.replace_from k None old new (s ++ old)
      = strings.replace_from k None old new s ++ new.
Proof.
  induction s as [| c s IH]; intros k Hk.
  - simpl in Hk. assert (k = 0%nat) as -> by lia. exact old_itself.
  - destruct k as [| k].
    + pose proof (no_overlap (String c s)) as Hno.
      rewrite string_app_cons in *.
      cbn [strings.replace_from strings.allowed strings.spent andb].
      rewrite Hno by discriminate.
      destruct (String.prefix old (String c s)) eqn:Hp.
      * apply prefix_length in Hp. simpl in Hp.
        rewrite IH by lia. now rewrite string_app_assoc.
      * string_app. now rewrite IH by lia.
    + simpl in Hk. string_app. simpl. apply IH. lia.
Qed.
End ReplaceAtTheEnd.

Lemma no_overlap_dash_rc (s : string) :
  s ≠ "" -> String.prefix "-rc" (s ++ "-rc") = String.prefix "-rc" s.
Proof.
  intros Hs. destruct s as [| c1 [| c2 [| c3 s]]]; try contradiction;
    string_app; cbn [String.prefix];
    repeat match goal with
           | |- context [Ascii.ascii_dec ?a ?b] =>
               destruct (Ascii.ascii_dec a b); try reflexivity;
               try discriminate
           end;
    now rewrite !prefix_nil.
Qed.

Lemma no_overlap_tilde_rc (s : string) :
  s ≠ "" -> String.prefix "~rc" (s ++ "~rc") = String.prefix "~rc" s.
Proof.
  intros Hs. destruct s as [| c1 [| c2 [| c3 s]]]; try contradiction;
    string_app; cbn [String.prefix];
    repeat match goal with
           | |- context [Ascii.ascii_dec ?a ?b] =>
               destruct (Ascii.ascii_dec a b); try reflexivity;
               try discriminate
           end;
    now rewrite !prefix_nil.
Qed.

(** ** The three replacements of [ppaVersion] *)

Import Stdlib.Strings.Ascii.

(** Replacing the single byte "-" by "+" works byte by byte. *)
Lemma replace_dash_cons (c : Ascii.ascii) (s : string) :
  strings.replace_from 0 None "-" "+" (String c s) =
    String (if Ascii.ascii_dec "-" c then "+" else c)
      (strings.replace_from 0 None "-" "+" s).
Proof.
  cbn [strings.replace_from strings.allowed strings.spent andb
       String.prefix String.length Nat.sub].
  destruct (Ascii.ascii_dec "-" c); [| reflexivity].
  now rewrite prefix_nil.
Qed.

Lemma replace_dash_app (a b : string) :
  strings.replace_from 0 None "-" "+" (a ++ b) =
    strings.replace_from 0 None "-" "+" a
    ++ strings.replace_from 0 None "-" "+" b.
Proof.
  induction a as [| c a IH]; string_app; [reflexivity |].
  rewrite !replace_dash_cons. string_app. now rewrite IH.
Qed.

Lemma replace_dash_length (s : string) :
  String.length (strings.replace_from 0 None "-" "+" s) = String.length s.
Proof.
  induction s as [| c s IH]; [reflexivity |].
  rewrite replace_dash_cons. cbn [String.length]. now rewrite IH.
Qed.

Lemma replace_dash_drop (n : nat) (s : string) :
  strings.drop n (strings.replace_from 0 None "-" "+" s) =
    strings.replace_from 0 None "-" "+" (strings.drop n s).
Proof.
  revert s. induction n as [| n IH]; intros [| c s]; try reflexivity.
  rewrite replace_dash_cons. cbn [strings.drop]. apply IH.
Qed.

Lemma replace_dash_no_dash (s : string) :
  strings.occurs "-"%char (strings.replace_from 0 None "-" "+" s) = false.
Proof.
  induction s as [| c s IH]; [reflexivity |].
  rewrite replace_dash_cons. cbn [strings.occurs]. rewrite IH, orb_false_r.
  destruct (Ascii.ascii_dec "-" c) as [<- | Hne]; [reflexivity |].
  apply Ascii.eqb_neq. exact Hne.
Qed.

Lemma replace_dash_id (s : string) :
  strings.occurs "-"%char s = false ->
  strings.replace_from 0 None "-" "+" s = s.
Proof.
  induction s as [| c s IH]; intros H; [reflexivity |].
  cbn [strings.occurs] in H. apply orb_false_iff in H as [Hc Hs].
  rewrite replace_dash_cons, IH by exact Hs.
  destruct (Ascii.ascii_dec "-" c) as [<- | Hne]; [discriminate |].
  reflexivity.
Qed.

Lemma replace_dash_rc_id (s : string) :
  strings.occurs "-"%char s = false ->
  strings.replace_from 0 None "-rc" "~rc" s = s.
Proof.
  induction s as [| c s IH]; intros H; [reflexivity |].
  cbn [strings.occurs] in H. apply orb_false_iff in H as [Hc Hs].
  cbn [strings.replace_from strings.allowed strings.spent andb
       String.prefix].
  destruct (Ascii.ascii_dec "-" c) as [<- | Hne]; [discriminate |].
  now rewrite IH.
Qed.

Lemma occurs_app (c : Ascii.ascii) (a b : string) :
  strings.occurs c (a ++ b) = strings.occurs c a || strings.occurs c b.
Proof.
  induction a as [| x a IH]; string_app; [reflexivity |].
  cbn [strings.occurs]. now rewrite IH, orb_assoc.
Qed.

Lemma replace_dash_cons_inv (c d : ascii) (x t : string) :
  d <> "+"%char ->
  strings.replace_from 0 None "-" "+" (String c x) = String d t ->
  c = d /\ strings.replace_from 0 None "-" "+" x = t.
Proof.
  intros Hd. rewrite replace_dash_cons. intros H.
  assert (H1 : (if ascii_dec "-" c then "+"%char else c) = d)
    by congruence.
  assert (H2 : strings.replace_from 0 None "-" "+" x = t) by congruence.
  split; [| exact H2]. revert H1.
  destruct (ascii_dec "-" c); intros H1; [congruence | exact H1].
Qed.

(** A string turns into "~rc" only if it was "~rc". *)
Lemma replace_dash_is_tilde_rc (x : string) :
  String.eqb (strings.replace_from 0 None "-" "+" x) "~rc"
    = String.eqb x "~rc".
Proof.
  destruct (String.eqb x "~rc") eqn:Hx.
  - apply String.eqb_eq in Hx. now subst x.
  - apply String.eqb_neq. apply String.eqb_neq in Hx. intros Heq.
    apply Hx. clear Hx.
    destruct x as [| c1 x]; [discriminate Heq |].
    apply replace_dash_cons_inv in Heq as [-> Heq]; [| discriminate].
    destruct x as [| c2 x]; [discriminate Heq |].
    apply replace_dash_cons_inv in Heq as [-> Heq]; [| discriminate].
    destruct x as [| c3 x]; [discriminate Heq |].
    apply replace_dash_cons_inv in Heq as [-> Heq]; [| discriminate].
    destruct x as [| c4 x]; [reflexivity |].
    rewrite replace_dash_cons in Heq. discriminate Heq.
Qed.

Lemma HasSuffix_replace_dash (s : string) :
  strings.HasSuffix (strings.replace_from 0 None "-" "+" s) "~rc"
    = strings.HasSuffix s "~rc".
Proof.
  unfold strings.HasSuffix.
  now rewrite replace_dash_length, replace_dash_drop,
    replace_dash_is_tilde_rc.
Qed.

Lemma HasSuffix_numbered (q : string) :
  strings.HasSuffix (q ++ "~rc1") "~rc" = false.
Proof.
  unfold strings.HasSuffix. rewrite string_length_app.
  replace (String.length q + String.length "~rc1" - String.length "~rc")%nat
    with (String.length q + 1)%nat by (simpl; lia).
  rewrite drop_app_length. apply andb_false_r.
Qed.

(** A dash-free prefix is copied as it is by the first replacement. *)
Lemma replace_dash_rc_after (v t : string) :
  strings.occurs "-"%char v = false ->
  strings.replace_from 0 None "-rc" "~rc" (v ++ t) =
    v ++ strings.replace_from 0 None "-rc" "~rc" t.
Proof.
  induction v as [| c v IH]; intros H; string_app; [reflexivity |].
  cbn [strings.occurs] in H. apply orb_false_iff in H as [Hc Hv].
  cbn [strings.replace_from strings.allowed strings.spent andb
       String.prefix].
  destruct (Ascii.ascii_dec "-" c) as [<- | Hne]; [discriminate |].
  now rewrite IH.
Qed.

Lemma replace_tilde_rc_id (s : string) :
  strings.occurs "~"%char s = false ->
  strings.replace_from 0 None "~rc" "~rc1" s = s.
Proof.
  induction s as [| c s IH]; intros H; [reflexivity |].
  cbn [strings.occurs] in H. apply orb_false_iff in H as [Hc Hs].
  cbn [strings.replace_from strings.allowed strings.spent andb
       String.prefix].
  destruct (Ascii.ascii_dec "~" c) as [<- | Hne]; [discriminate |].
  now rewrite IH.
Qed.

Lemma replace_dash_rc_at_end (s : string) :
  strings.replace_from 0 None "-rc" "~rc" (s ++ "-rc")
    = strings.replace_from 0 None "-rc" "~rc" s ++ "~rc".
Proof.
  apply (replace_from_app_old "-rc" "~rc" no_overlap_dash_rc eq_refl s 0).
  lia.
Qed.

Lemma replace_tilde_rc_at_end (s : string) :
  strings.replace_from 0 None "~rc" "~rc1" (s ++ "~rc")
    = strings.replace_from 0 None "~rc" "~rc1" s ++ "~rc1".
Proof.
  apply (replace_from_app_old "~rc" "~rc1" no_overlap_tilde_rc eq_refl s 0).
  lia.
Qed.

(** ** [ppaVersion] *)

(** The three steps of [ppaVersion], each call of [strings.Replace] being
    a scan for a non-empty [old] without a bound. *)
Lemma ppaVersion_steps (v : string) :
  release.ppaVersion v =
    let ver := strings.replace_from 0 None "-rc" "~rc" v in
    let ver :=
      if strings.HasSuffix ver "~rc"
      then strings.replace_from 0 None "~rc" "~rc1" ver
      else ver in
    strings.replace_from 0 None "-" "+" ver.
Proof. reflexivity. Qed.

Lemma ppaVersion_dash_free (v : string) :
  strings.occurs "-"%char (release.ppaVersion v) = false.
Proof. rewrite ppaVersion_steps. apply replace_dash_no_dash. Qed.

Lemma ppaVersion_numbered (v : string) :
  strings.HasSuffix (release.ppaVersion v) "~rc" = false.
Proof.
  rewrite ppaVersion_steps. cbv zeta.
  destruct (strings.HasSuffix (strings.replace_from 0 None "-rc" "~rc" v)
              "~rc") eqn:Hrc.
  - apply HasSuffix_spec in Hrc as [p ->].
    rewrite replace_tilde_rc_at_end, replace_dash_app.
    apply HasSuffix_numbered.
  - now rewrite HasSuffix_replace_dash.
Qed.

Lemma ppaVersion_unchanged (v : string) :
  strings.occurs "-"%char v = false ->
  strings.HasSuffix v "~rc" = false ->
  release.ppaVersion v = v.
Proof.
  intros Hdash Hrc. rewrite ppaVersion_steps. cbv zeta.
  rewrite replace_dash_rc_id by exact Hdash. rewrite Hrc.
  now apply replace_dash_id.
Qed.

(** X14: The version [ppaVersion] returns has no minus in it, whatever
    the build version was. *)
Theorem ppaVersion_has_no_minus (buildVersion : string) :
  strings.occurs "-"%char (release.ppaVersion buildVersion) = false.
Proof. apply ppaVersion_dash_free. Qed.

(** X15: The version [ppaVersion] returns never ends in a release
    candidate mark without a number, "~rc". *)
Theorem ppaVersion_never_ends_in_bare_rc (buildVersion : string) :
  strings.HasSuffix (release.ppaVersion buildVersion) "~rc" = false.
Proof. apply ppaVersion_numbered. Qed.

(** X16: A build version without a minus that does not end in "~rc" is
    returned as it is. *)
Theorem ppaVersion_keeps_plain_versions (buildVersion : string) :
  strings.occurs "-"%char buildVersion = false ->
  strings.HasSuffix buildVersion "~rc" = false ->
  release.ppaVersion buildVersion = buildVersion.
Proof. apply ppaVersion_unchanged. Qed.

(** X17: [ppaVersion] is idempotent: a version it returned is returned
    unchanged. *)
Theorem ppaVersion_idempotent (buildVersion : string) :
  release.ppaVersion (release.ppaVersion buildVersion)
    = release.ppaVersion buildVersion.
Proof.
  apply ppaVersion_unchanged;
    [apply ppaVersion_dash_free | apply ppaVersion_numbered].
Qed.

(** X18: A build version that ends in "-rc" gives a version that ends in
    "~rc1": a release candidate without a number becomes the first. *)
Theorem ppaVersion_bare_rc_becomes_first (v : string) :
  strings.HasSuffix (release.ppaVersion (v ++ "-rc")) "~rc1" = true.
Proof.
  rewrite ppaVersion_steps. cbv zeta. rewrite replace_dash_rc_at_end.
  assert (strings.HasSuffix
            (strings.replace_from 0 None "-rc" "~rc" v ++ "~rc") "~rc"
          = true) as -> by (apply HasSuffix_spec; eexists; reflexivity).
  rewrite replace_tilde_rc_at_end, replace_dash_app.
  apply HasSuffix_spec. eexists. reflexivity.
Qed.

(** X19: A numbered release candidate [v-rcN], with no other minus in it,
    only has the minus of its mark turned into a tilde: [v~rcN]. *)
Theorem ppaVersion_numbered_candidate (v n : string) :
  strings.occurs "-"%char v = false ->
  strings.occurs "-"%char n = false ->
  strings.HasSuffix (v ++ "~rc" ++ n) "~rc" = false ->
  release.ppaVersion (v ++ "-rc" ++ n) = v ++ "~rc" ++ n.
Proof.
  intros Hv Hn Hrc. rewrite ppaVersion_steps. cbv zeta.
  rewrite replace_dash_rc_after by exact Hv.
  assert (strings.replace_from 0 None "-rc" "~rc" ("-rc" ++ n)
          = "~rc" ++ n) as ->.
  { string_app.
    transitivity ("~rc" ++ strings.replace_from 0 None "-rc" "~rc" n);
      [destruct n; reflexivity |].
    now rewrite replace_dash_rc_id. }
  rewrite Hrc. apply replace_dash_id.
  rewrite occurs_app, Hv. string_app. cbn [strings.occurs]. exact Hn.
Qed.

(** X20: A release candidate without a number [v-rc], with no other minus
    and no tilde in it, becomes [v~rc1]. *)
Theorem ppaVersion_bare_candidate (v : string) :
  strings.occurs "-"%char v = false ->
  strings.occurs "~"%char v = false ->
  release.ppaVersion (v ++ "-rc") = v ++ "~rc1".
Proof.
  intros Hdash Htilde. rewrite ppaVersion_steps. cbv zeta.
  rewrite replace_dash_rc_at_end, replace_dash_rc_id by exact Hdash.
  assert (strings.HasSuffix (v ++ "~rc") "~rc" = true) as ->
    by (apply HasSuffix_spec; eexists; reflexivity).
  rewrite replace_tilde_rc_at_end, replace_tilde_rc_id by exact Htilde.
  rewrite replace_dash_app, replace_dash_id by exact Hdash.
  reflexivity.
Qed.

(** ** [releaseDebianPPA] *)

Section ReleaseProperties.
Context {W : Type} {host : release.Host W}.

(** The loop returns nil exactly when every command, run in order on the
    host the command before it left, returned nil. *)
Lemma release_each_success (opts : release.releaseDebianOpts)
    (names : list string) :
  ∀ w w' : W,
    release.release_each opts names w = (w', None) <->
    succeed release.Run w (map (release.release_ppa_command opts) names)
      = Some w'.
Proof.
  induction names as [| codename names IH]; intros w w';
    cbn [release.release_each map succeed].
  - split; intros Heq; injection Heq as <-; reflexivity.
  - destruct (release.Run w (release.release_ppa_command opts codename))
      as [w1 [e |]]; [split; discriminate | apply IH].
Qed.

(** The loop returns the error of the first command that fails, the
    commands before it having returned nil, and leaves the host as the
    failed command left it. *)
Lemma release_each_failure (opts : release.releaseDebianOpts)
    (names : list string) :
  ∀ (w w' : W) (e : string),
    release.release_each opts names w = (w', Some e) ->
    ∃ (n : nat) (codename : string) (w0 : W),
      names !! n = Some codename ∧
      succeed release.Run w
        (map (release.release_ppa_command opts) (take n names)) = Some w0 ∧
      release.Run w0 (release.release_ppa_command opts codename)
        = (w', Some e).
Proof.
  induction names as [| codename names IH]; intros w w' e Heq;
    cbn [release.release_each] in Heq; [discriminate Heq |].
  destruct (release.Run w (release.release_ppa_command opts codename))
    as [w1 [e1 |]] eqn:Hrun.
  - injection Heq as <- <-. exists 0%nat, codename, w.
    split; [reflexivity |]. split; [reflexivity | exact Hrun].
  - destruct (IH _ _ _ Heq) as (n & c & w0 & Hn & Hbefore & Hfail).
    exists (S n), c, w0. split; [exact Hn |]. split; [| exact Hfail].
    cbn [take map succeed]. now rewrite Hrun.
Qed.

(** X21: [releaseDebianPPA] returns nil exactly when the terms template
    file step and then the [bin/release_ppa] commands for bionic, focal,
    jammy and lunar, run in this order, each on the host the step before
    it left, all returned nil; the host is then the one the command for
    lunar left. *)
Theorem releaseDebianPPA_runs_in_order (opts : release.releaseDebianOpts)
    (w w' : W) :
  release.releaseDebianPPA opts w = (w', None) <->
  ∃ w1 : W,
    release.TermsTemplateFile w "debian/templates" = (w1, None) ∧
    succeed release.Run w1
      (map (release.release_ppa_command opts) release.codenames) = Some w'.
Proof.
  unfold release.releaseDebianPPA.
  destruct (release.TermsTemplateFile w "debian/templates") as [w1 [e |]].
  - split; [discriminate |]. intros (w2 & Heq & _). discriminate Heq.
  - rewrite release_each_success. split.
    + intros Hall. exists w1. split; [reflexivity | exact Hall].
    + intros (w2 & Heq & Hall). injection Heq as <-. exact Hall.
Qed.

(** X22: the release starts with the terms template file.  When this
    step fails, [releaseDebianPPA] returns its error and leaves the host
    as the step left it, whatever a command would have done.  When it
    succeeds, the command for bionic is run on the host the step left,
    and the failure of this command is the error returned. *)
Theorem releaseDebianPPA_template_step (opts : release.releaseDebianOpts)
    (w w1 : W) (err1 : error) :
  release.TermsTemplateFile w "debian/templates" = (w1, err1) ->
  match err1 with
  | Some e => release.releaseDebianPPA opts w = (w1, Some e)
  | None =>
      ∀ (w2 : W) (e : string),
        release.Run w1 (release.release_ppa_command opts "bionic")
          = (w2, Some e) ->
        release.releaseDebianPPA opts w = (w2, Some e)
  end.
Proof.
  intros Htemplate. unfold release.releaseDebianPPA. rewrite Htemplate.
  destruct err1 as [e |]; [reflexivity |].
  intros w2 e Hrun. cbn [release.codenames release.release_each].
  now rewrite Hrun.
Qed.

(** X23: the error [releaseDebianPPA] returns is the error of the first
    step that fails: of the terms template file, or of a command, the
    template step and the commands before it having returned nil.  The
    host is left as the failed step left it: no command is run after a
    failure. *)
Theorem releaseDebianPPA_stops_at_first_failure
    (opts : release.releaseDebianOpts) (w w' : W) (e : string) :
  release.releaseDebianPPA opts w = (w', Some e) ->
  release.TermsTemplateFile w "debian/templates" = (w', Some e) ∨
  ∃ (w1 : W) (n : nat) (codename : string) (w0 : W),
    release.TermsTemplateFile w "debian/templates" = (w1, None) ∧
    release.codenames !! n = Some codename ∧
    succeed release.Run w1
      (map (release.release_ppa_command opts) (take n release.codenames))
      = Some w0 ∧
    release.Run w0 (release.release_ppa_command opts codename)
      = (w', Some e).
Proof.
  unfold release.releaseDebianPPA.
  destruct (release.TermsTemplateFile w "debian/templates") as [w1 [e1 |]].
  - intros Heq. injection Heq as <- <-. now left.
  - intros Heq. right.
    destruct (release_each_failure _ _ _ _ _ Heq)
      as (n & c & w0 & Hn & Hbefore & Hfail).
    exists w1, n, c, w0. split; [reflexivity |].
    split; [exact Hn |]. split; [exact Hbefore | exact Hfail].
Qed.
End ReleaseProperties.

(** ** The release on concrete inputs *)

Lemma ppaVersion_keeps_plain_versions_witness :
  release.ppaVersion "0.10.0" = "0.10.0".
Proof.
  apply (ppaVersion_keeps_plain_versions "0.10.0"); reflexivity.
Defined.

Lemma ppaVersion_numbered_candidate_witness :
  release.ppaVersion ("0.10.0" ++ "-rc" ++ "2") = "0.10.0" ++ "~rc" ++ "2".
Proof.
  apply (ppaVersion_numbered_candidate "0.10.0" "2"); reflexivity.
Defined.

Lemma ppaVersion_bare_candidate_witness :
  release.ppaVersion ("0.10.0" ++ "-rc") = "0.10.0" ++ "~rc1".
Proof.
  apply (ppaVersion_bare_candidate "0.10.0"); reflexivity.
Defined.

Lemma releaseDebianPPA_runs_in_order_witness :
  ∃ w1 : release.MemHost,
    release.TermsTemplateFile
      {| release.completed := []; release.failures := [] |}
      "debian/templates" = (w1, None) ∧
    succeed release.Run w1
      (map (release.release_ppa_command ReleaseScenario.opts)
         release.codenames) =
      Some {| release.completed :=
                ["bin/release_ppa node-dev 0.10.0~rc1 71088039 bionic";
                 "bin/release_ppa node-dev 0.10.0~rc1 71088039 focal";
                 "bin/release_ppa node-dev 0.10.0~rc1 71088039 jammy";
                 "bin/release_ppa node-dev 0.10.0~rc1 71088039 lunar"];
              release.failures := [] |}.
Proof.
  apply (proj1 (releaseDebianPPA_runs_in_order ReleaseScenario.opts
                  {| release.completed := []; release.failures := [] |}
                  _)).
  reflexivity.
Defined.

Lemma releaseDebianPPA_template_step_witness :
  release.releaseDebianPPA ReleaseScenario.opts ReleaseScenario.no_template
    = ({| release.completed := []; release.failures := [] |},
       Some "exit status 1").
Proof.
  apply (releaseDebianPPA_template_step ReleaseScenario.opts
           ReleaseScenario.no_template
           {| release.completed := []; release.failures := [] |}
           (Some "exit status 1")).
  reflexivity.
Defined.

Lemma releaseDebianPPA_stops_at_first_failure_witness :
  release.TermsTemplateFile ReleaseScenario.focal_fails "debian/templates"
    = ({| release.completed :=
            ["bin/release_ppa node-dev 0.10.0~rc1 71088039 bionic"];
          release.failures := [] |}, Some "exit status 1") ∨
  ∃ (w1 : release.MemHost) (n : nat) (codename : string)
    (w0 : release.MemHost),
    release.TermsTemplateFile ReleaseScenario.focal_fails "debian/templates"
      = (w1, None) ∧
    release.codenames !! n = Some codename ∧
    succeed release.Run w1
      (map (release.release_ppa_command ReleaseScenario.opts)
         (take n release.codenames)) = Some w0 ∧
    release.Run w0 (release.release_ppa_command ReleaseScenario.opts codename)
      = ({| release.completed :=
              ["bin/release_ppa node-dev 0.10.0~rc1 71088039 bionic"];
            release.failures := [] |}, Some "exit status 1").
Proof.
  apply (releaseDebianPPA_stops_at_first_failure ReleaseScenario.opts
           ReleaseScenario.focal_fails).
  reflexivity.
Defined.

(** The versions of the comments of [ppaVersion], and a build version
    with a minus outside the release candidate mark. *)
Example ppaVersion_of_builds :
  release.ppaVersion "0.10.0-rc2" = "0.10.0~rc2" ∧
  release.ppaVersion "0.10.0-rc" = "0.10.0~rc1" ∧
  release.ppaVersion "0.10.0" = "0.10.0" ∧
  release.ppaVersion "1.2.3-1-gabc" = "1.2.3+1+gabc".
Proof. repeat split. Qed.

(** A release on which the command for focal fails: the command for
    bionic is the only one that ran to its end, those for jammy and lunar
    were not run. *)
Example releaseDebianPPA_focal_fails :
  release.releaseDebianPPA ReleaseScenario.opts ReleaseScenario.focal_fails
  = ({| release.completed :=
          ["bin/release_ppa node-dev 0.10.0~rc1 71088039 bionic"];
        release.failures := [] |}, Some "exit status 1").
Proof. reflexivity. Qed.

(** [strings.Replace] with an empty [old] steps by UTF-8 sequence, and a
    bound on the replacements is kept. *)
Example Replace_empty_old :
  strings.Replace "ab" "" "-" (-1) = "-a-b-" ∧
  strings.Replace "ab" "" "-" 2 = "-a-b" ∧
  strings.Replace "abab" "ab" "x" 1 = "xab" ∧
  strings.Replace
    (String (ascii_of_nat 195) (String (ascii_of_nat 169) "a")) "" "-" (-1)
  = "-" ++ String (ascii_of_nat 195) (String (ascii_of_nat 169) "-a-").
Proof. repeat split. Qed.
